(** * flower-garden: the procedural flower engine and its storage adapter

    A shallow embedding of [src/components/flower-scene.tsx] and
    [src/lib/flower-storage.ts], and the properties of the specification
    that are settled on it.

    Numbers.  The source computes with JavaScript [number]s.  They are
    modelled as real numbers: [Math.sin], [Math.cos], [Math.floor],
    [Math.max] and the arithmetic operators are the exact ones of [R].
    Rounding, NaN and the infinities of binary64 are not part of the model,
    so every numeric theorem below speaks about exact arithmetic.

    Layout.  Part I holds the definitions, module by module in the order of
    the source; Part II holds the lemmas and theorems; Part III holds
    further properties of the code, including the parts of the scene, of
    the editor page and of the storage adapter that Part II does not
    touch. *)

From Stdlib Require Import Reals Lra Lia ZArith List String Bool.
From stdpp Require Import base option list strings gmap.

(* ===================================================================== *)
(** * Part I.  Definitions                                                *)
(* ===================================================================== *)

(** ** The fragment of the JavaScript [Math] object used by the source *)

Module Math.

(** [Math.floor x]: the largest integer not above [x]. *)
Definition floor (x : R) : R := IZR (Int_part x).

(** [Math.max a b]. *)
Definition max (a b : R) : R := Rmax a b.

(** [Math.PI]. *)
Definition PI : R := Rtrigo1.PI.

Definition sin : R -> R := Rtrigo_def.sin.

Definition cos : R -> R := Rtrigo_def.cos.

End Math.

(** A three-component JavaScript array [[x, y, z]] of numbers. *)
Definition vec3 : Type := (R * R * R)%type.

Definition vx (p : vec3) : R := fst (fst p).

Definition vy (p : vec3) : R := snd (fst p).

Definition vz (p : vec3) : R := snd p.

(** A timestamp-valued property that may be [null] or [undefined]
    ([lastWatered?: string | null]).  [None] stands for both absent values:
    the source only ever tests such a value for truthiness before it
    compares it, and both are falsy. *)
Definition stamp : Type := option string.

(** JavaScript truthiness of a [stamp]: the empty string is falsy too. *)
Definition truthyStamp (s : stamp) : bool :=
  match s with
  | Some t => negb (String.eqb t "")
  | None => false
  end.

(** ** Data model *)

(** [interface FlowerProps] (flower-scene.tsx, lines 10-24).  [petalCount]
    is an integer in the data model of the specification, and the callers
    only ever pass integers; the optional properties are options. *)
Record FlowerProps : Type := mkFlowerProps {
  petalCount : Z;
  petalLength : R;
  petalWidth : R;
  stemHeight : R;
  petalColor : string;
  centerColor : string;
  stemColor : string;
  seed : R;
  isPlanted : option bool;
  username : option string;
  position : option vec3;
  lastWatered : stamp;
  id : option string
}.

(** [interface PlantedFlower] (flower-storage.ts, lines 4-19), the typed
    view of a stored record that the scene consumes. *)
Module PlantedFlower.

Record t : Type := mk {
  id : string;
  username : string;
  petalCount : Z;
  petalLength : R;
  petalWidth : R;
  stemHeight : R;
  petalColor : string;
  centerColor : string;
  stemColor : string;
  seed : R;
  position : vec3;
  plantedAt : string;
  lastWatered : stamp;
  waterCount : option Z
}.

End PlantedFlower.

(** ** [createRandomGenerator] (flower-scene.tsx, lines 216-221) *)

Section RandomGenerator.
Local Open Scope R_scope.

(** The closure returned by [createRandomGenerator(seed)], applied to
    [(min, max, seedOffset)].  The source gives [seedOffset] the default
    value 0; every call site of the file passes it explicitly.  The
    difference [x - Math.floor x] is the exact one here; in binary64 it is
    rounded, and for a tiny negative [x] it rounds up to 1. *)
Definition createRandomGenerator (seed : R) (min max seedOffset : R) : R :=
  let x := Math.sin (seed + seedOffset) * 10000 in
  min + (x - Math.floor x) * (max - min).

(** The call [random(min, max)] that relies on the default offset. *)
Definition createRandomGenerator_default (seed : R) (min max : R) : R :=
  createRandomGenerator seed min max 0.

End RandomGenerator.

(** ** [Flower]: wind parameters and petals (lines 223-274) *)

Record WindParams : Type := mkWindParams {
  speed : R;
  strength : R;
  turbulence : R;
  direction : R
}.

(** The locals [angle], [length], [width] and [bend] of one iteration of
    the petal loop. *)
Module Petal.

Record t : Type := mk {
  angle : R;
  length : R;
  width : R;
  bend : R
}.

End Petal.

(** The [<mesh>] element pushed for one petal: its key, position and
    rotation, the [planeGeometry] arguments and the material colour. *)
Record PetalMesh : Type := mkPetalMesh {
  meshKey : Z;
  meshPosition : vec3;
  meshRotation : vec3;
  planeArgs : R * R;
  materialColor : string
}.

Section FlowerGeometry.
Local Open Scope R_scope.

(** [windParams] (lines 242-249). *)
Definition windParams (seed : R) : WindParams :=
  let random := createRandomGenerator seed in
  {| speed := random 0.5 1.5 42;
     strength := random 0.05 0.15 13;
     turbulence := random 0.1 0.3 27;
     direction := random 0 (Math.PI * 2) 99 |}.

(** The body of the petal loop for index [i] (lines 255-264). *)
Definition petalSpec (petalCount : Z) (petalLength petalWidth seed : R)
    (i : Z) : Petal.t :=
  let random := createRandomGenerator seed in
  let angle := (IZR i / IZR petalCount) * Math.PI * 2 in
  let petalSeed := seed + IZR i in
  let length := petalLength * (0.9 + random 0 0.2 petalSeed) in
  let width := petalWidth * (0.9 + random 0 0.2 (petalSeed + 0.1)) in
  let baseBend := random 0.1 0.3 (petalSeed + 0.2) in
  let bendVariance := random (-0.1) 0.1 (petalSeed + IZR i * 0.5) in
  let bend := Math.max 0.05 (baseBend + bendVariance) in
  Petal.mk angle length width bend.

(** The element built from those locals (lines 266-271). *)
Definition petalMesh (petalColor : string) (i : Z) (s : Petal.t) : PetalMesh :=
  {| meshKey := i;
     meshPosition := (0, 0, 0);
     meshRotation := (Math.PI / 2 - Petal.bend s, 0, Petal.angle s);
     planeArgs := (Petal.width s * 2, Petal.length s * 2);
     materialColor := petalColor |}.

End FlowerGeometry.

(** [for (let i = 0; i < petalCount; i++) items.push(body i)]: [n] is the
    number of iterations still to run and [i] the loop counter. *)
Fixpoint petalLoop {A : Type} (body : Z -> A) (n : nat) (i : Z) : list A :=
  match n with
  | O => []
  | S n' => body i :: petalLoop body n' (i + 1)%Z
  end.

(** The petal parameters in the order the loop produces them. *)
Definition petalLayout (p : FlowerProps) : list Petal.t :=
  petalLoop (petalSpec (petalCount p) (petalLength p) (petalWidth p) (seed p))
            (Z.to_nat (petalCount p)) 0%Z.

(** [petals] (lines 252-274): the array of mesh elements. *)
Definition petals (p : FlowerProps) : list PetalMesh :=
  petalLoop (fun i => petalMesh (petalColor p) i
               (petalSpec (petalCount p) (petalLength p) (petalWidth p) (seed p) i))
            (Z.to_nat (petalCount p)) 0%Z.

(** The petal parameters read back from a mesh element: the inverse of
    [petalMesh] on the four locals. *)
Definition meshLayout (m : PetalMesh) : Petal.t :=
  Petal.mk (vz (meshRotation m))
           (snd (planeArgs m) / 2)%R
           (fst (planeArgs m) / 2)%R
           (Math.PI / 2 - vx (meshRotation m))%R.

(** *** Memoisation of the petals across renders *)

#[global] Instance R_eq_dec : EqDecision R := Req_dec_T.

(** The dependency array of the [useMemo] holding the petals,
    [[petalCount, petalLength, petalWidth, petalColor, seed, random]];
    the closure [random] is itself memoised on [[seed]] and changes exactly
    when [seed] does. *)
Definition petalDeps (p : FlowerProps) : Z * R * R * string * R :=
  (petalCount p, petalLength p, petalWidth p, petalColor p, seed p).

(** One render of the hook: the cell holds the dependencies and the value
    of the previous computation, and the value is reused when the
    dependencies are unchanged. *)
Definition usePetals (cell : option (Z * R * R * string * R * list PetalMesh))
    (p : FlowerProps)
    : list PetalMesh * option (Z * R * R * string * R * list PetalMesh) :=
  match cell with
  | Some (deps, value) =>
      if bool_decide (deps = petalDeps p) then (value, cell)
      else (petals p, Some (petalDeps p, petals p))
  | None => (petals p, Some (petalDeps p, petals p))
  end.

(** The invariant of the memo cell: it holds the petals of its own
    dependency array. *)
Definition coherent (cell : option (Z * R * R * string * R * list PetalMesh)) : Prop :=
  match cell with
  | Some (deps, value) => forall q, petalDeps q = deps -> value = petals q
  | None => True
  end.

(** The petals a [Flower] shows when it renders with props [p] after having
    rendered, since it was mounted, with the props of [history] in turn. *)
Definition shownPetals (history : list FlowerProps) (p : FlowerProps)
    : list PetalMesh :=
  fst (usePetals (fold_left (fun cell q => snd (usePetals cell q)) history None) p).

(** The props of the editor when the page opens (page.tsx, lines 33-40),
    for a given stem height, seed and position. *)
Definition initialProps (stemHeight seed : R) (position : option vec3)
    : FlowerProps :=
  {| petalCount := 8;
     petalLength := 1;
     petalWidth := 0.5;
     stemHeight := stemHeight;
     petalColor := "#ff6b6b";
     centerColor := "#feca57";
     stemColor := "#1dd1a1";
     seed := seed;
     isPlanted := None;
     username := None;
     position := position;
     lastWatered := None;
     id := None |}.

(** ** [Flower]: the per-frame wind animation (lines 277-306) *)

(** The mutable transform of a [THREE.Group] that the animation writes. *)
Record Group : Type := mkGroup {
  groupRotation : vec3;
  groupPosition : vec3
}.

(** The three refs of a [Flower]; [None] is a ref whose [current] is null. *)
Record FlowerRefs : Type := mkFlowerRefs {
  flowerGroup : option Group;
  stemGroup : option Group;
  petalGroup : option Group
}.

Section Wind.
Local Open Scope R_scope.

Definition windX (w : WindParams) (time : R) : R :=
  Math.sin (time * speed w) * strength w.

Definition windZ (w : WindParams) (time : R) : R :=
  Math.cos (time * speed w + 0.3) * strength w * 0.7.

Definition turbulenceX (w : WindParams) (time : R) : R :=
  Math.sin (time * 2.5 * speed w) * turbulence w * 0.05.

Definition turbulenceZ (w : WindParams) (time : R) : R :=
  Math.cos (time * 2.7 * speed w) * turbulence w * 0.04.

Definition directedWindX (w : WindParams) (time : R) : R :=
  (windX w time + turbulenceX w time) * Math.cos (direction w).

Definition directedWindZ (w : WindParams) (time : R) : R :=
  (windZ w time + turbulenceZ w time) * Math.sin (direction w).

(** The [useFrame] callback at elapsed time [time]: nothing happens while
    a ref is still null; otherwise five components are overwritten. *)
Definition useFrame (w : WindParams) (stemHeight time : R)
    (refs : FlowerRefs) : FlowerRefs :=
  match flowerGroup refs, stemGroup refs, petalGroup refs with
  | Some fg, Some sg, Some pg =>
      {| stemGroup := Some
           {| groupRotation := (directedWindZ w time * 0.2,
                                vy (groupRotation sg),
                                - directedWindX w time * 0.2);
              groupPosition := groupPosition sg |};
         flowerGroup := Some
           {| groupRotation := groupRotation fg;
              groupPosition := (directedWindX w time * stemHeight * 0.2,
                                vy (groupPosition fg),
                                directedWindZ w time * stemHeight * 0.2) |};
         petalGroup := Some
           {| groupRotation := (Math.cos (time * 2.5) * 0.02,
                                Math.sin (time * 3) * 0.03,
                                Math.sin (time * 4) * 0.01);
              groupPosition := groupPosition pg |} |}
  | _, _, _ => refs
  end.

End Wind.

(** ** Vertical placement (lines 169-179, 457-459; flower-storage.ts 51-59) *)

Section Placement.
Local Open Scope R_scope.

(** [PlantedFlowerWithLabel]: the [position] given to the group. *)
Definition PlantedFlowerWithLabel_position (props : FlowerProps) : vec3 :=
  let position : vec3 :=
    match position props with
    | Some p => (vx p, vy p, vz p)
    | None => (0, 0, 0)
    end in
  if Rgt_dec (stemHeight props) 4
  then (vx position, - Math.max 0 ((stemHeight props - 4) * 0.15), vz position)
  else position.

(** [plantFlower]: the position written to the store. *)
Definition plantFlower_position (position : vec3) (stemHeight : R) : vec3 :=
  let position' : vec3 := (vx position, vy position, vz position) in
  if Rgt_dec stemHeight 4
  then (vx position', - Math.max 0 ((stemHeight - 4) * 0.15), vz position')
  else position'.

(** [FlowerScene]: the y-offset of the group around the single flower. *)
Definition singleFlowerYOffset (stemHeight : R) : R :=
  - Math.max 0.5 (stemHeight * 0.25).

(** [FlowerScene]: the position of that group. *)
Definition singleFlower_position (stemHeight : R) : vec3 :=
  (0, singleFlowerYOffset stemHeight, 0).

End Placement.

(** [Field]: the props handed to [PlantedFlowerWithLabel] for one record
    (lines 149-158). *)
Definition Field_props (flower : PlantedFlower.t) : FlowerProps :=
  {| petalCount := PlantedFlower.petalCount flower;
     petalLength := PlantedFlower.petalLength flower;
     petalWidth := PlantedFlower.petalWidth flower;
     stemHeight := PlantedFlower.stemHeight flower;
     petalColor := PlantedFlower.petalColor flower;
     centerColor := PlantedFlower.centerColor flower;
     stemColor := PlantedFlower.stemColor flower;
     seed := PlantedFlower.seed flower;
     isPlanted := None;
     username := Some (PlantedFlower.username flower);
     position := Some (PlantedFlower.position flower);
     lastWatered := PlantedFlower.lastWatered flower;
     id := Some (PlantedFlower.id flower) |}.

(** ** [PlantedFlowerWithLabel]: the watering effect (lines 163-187) *)

(** One mounted [PlantedFlowerWithLabel].  [propsLastWatered] is
    [props.lastWatered] of the latest render; [hovered],
    [showWaterAnimation] and [lastWateredTime] are the three [useState]
    cells; [effectDeps] is the dependency array React recorded when it last
    ran the effect ([None] before the first run).  [waterFires] is a ghost
    counter: the number of times the effect has called
    [setShowWaterAnimation(true)]. *)
Record LabelInstance : Type := mkLabelInstance {
  propsLastWatered : stamp;
  hovered : bool;
  showWaterAnimation : bool;
  lastWateredTime : stamp;
  effectDeps : option (stamp * stamp);
  waterFires : nat
}.

(** The body of the effect (lines 183-186). *)
Definition effectBody (st : LabelInstance) : LabelInstance :=
  if truthyStamp (propsLastWatered st)
     && negb (bool_decide (propsLastWatered st = lastWateredTime st))
  then {| propsLastWatered := propsLastWatered st;
          hovered := hovered st;
          showWaterAnimation := true;
          lastWateredTime := propsLastWatered st;
          effectDeps := effectDeps st;
          waterFires := S (waterFires st) |}
  else st.

(** After a render React runs the effect when its dependency array
    [[props.lastWatered, lastWateredTime]] differs from the recorded one. *)
Definition commitEffects (st : LabelInstance) : LabelInstance :=
  let deps := (propsLastWatered st, lastWateredTime st) in
  if bool_decide (effectDeps st = Some deps) then st
  else effectBody {| propsLastWatered := propsLastWatered st;
                     hovered := hovered st;
                     showWaterAnimation := showWaterAnimation st;
                     lastWateredTime := lastWateredTime st;
                     effectDeps := Some deps;
                     waterFires := waterFires st |}.

(** A state setter that changed a cell schedules another render. *)
Definition stateChanged (st st' : LabelInstance) : bool :=
  negb (bool_decide (showWaterAnimation st = showWaterAnimation st'))
  || negb (bool_decide (lastWateredTime st = lastWateredTime st')).

(** Render, run the effects, and render again while a cell changed. *)
Fixpoint settle (fuel : nat) (st : LabelInstance) : LabelInstance :=
  match fuel with
  | O => st
  | S fuel' =>
      let st' := commitEffects st in
      if stateChanged st st' then settle fuel' st' else st'
  end.

(** Two rounds always reach a state that no further render changes
    (lemma [settle_stable]). *)
Definition renderRounds : nat := 2.

(** The first render: [useState(props.lastWatered)], then the effects. *)
Definition mount (lastWatered : stamp) : LabelInstance :=
  settle renderRounds
    {| propsLastWatered := lastWatered;
       hovered := false;
       showWaterAnimation := false;
       lastWateredTime := lastWatered;
       effectDeps := None;
       waterFires := 0 |}.

(** What can happen to a mounted instance: the parent passes a new
    snapshot, the droplet animation completes, the pointer enters or
    leaves. *)
Inductive LabelEvent : Type :=
| Snapshot (lastWatered : stamp)
| AnimationComplete
| PointerOver
| PointerOut.

Definition labelStep (st : LabelInstance) (ev : LabelEvent) : LabelInstance :=
  match ev with
  | Snapshot lw =>
      settle renderRounds
        {| propsLastWatered := lw;
           hovered := hovered st;
           showWaterAnimation := showWaterAnimation st;
           lastWateredTime := lastWateredTime st;
           effectDeps := effectDeps st;
           waterFires := waterFires st |}
  | AnimationComplete =>
      settle renderRounds
        {| propsLastWatered := propsLastWatered st;
           hovered := hovered st;
           showWaterAnimation := false;
           lastWateredTime := lastWateredTime st;
           effectDeps := effectDeps st;
           waterFires := waterFires st |}
  | PointerOver =>
      settle renderRounds
        {| propsLastWatered := propsLastWatered st;
           hovered := true;
           showWaterAnimation := showWaterAnimation st;
           lastWateredTime := lastWateredTime st;
           effectDeps := effectDeps st;
           waterFires := waterFires st |}
  | PointerOut =>
      settle renderRounds
        {| propsLastWatered := propsLastWatered st;
           hovered := false;
           showWaterAnimation := showWaterAnimation st;
           lastWateredTime := lastWateredTime st;
           effectDeps := effectDeps st;
           waterFires := waterFires st |}
  end.

Definition labelRun (st : LabelInstance) (evs : list LabelEvent) : LabelInstance :=
  fold_left labelStep evs st.

(** The condition under which the effect body fires, as a function of the
    snapshot value and of the value remembered in [lastWateredTime]. *)
Definition waterEdge (lw remembered : stamp) : bool :=
  truthyStamp lw && negb (bool_decide (lw = remembered)).

(** The number of changes in a run of events, counted from the remembered
    value: a snapshot counts when it carries a timestamp other than the one
    remembered, and is then the one remembered. *)
Fixpoint edges (remembered : stamp) (evs : list LabelEvent) : nat :=
  match evs with
  | [] => 0
  | Snapshot lw :: evs' =>
      if waterEdge lw remembered then S (edges lw evs') else edges remembered evs'
  | _ :: evs' => edges remembered evs'
  end.

(** The value remembered in [lastWateredTime] after a run of events. *)
Fixpoint rememberedAfter (remembered : stamp) (evs : list LabelEvent) : stamp :=
  match evs with
  | [] => remembered
  | Snapshot lw :: evs' =>
      if waterEdge lw remembered then rememberedAfter lw evs'
      else rememberedAfter remembered evs'
  | _ :: evs' => rememberedAfter remembered evs'
  end.

(** A state between events: the effect has run for the current pair of
    dependencies and has nothing left to do. *)
Definition quiescent (st : LabelInstance) : Prop :=
  effectDeps st = Some (propsLastWatered st, lastWateredTime st)
  /\ waterEdge (propsLastWatered st) (lastWateredTime st) = false.

(** An event that does not bring a watering time other than [t]. *)
Definition keeps (t : stamp) (ev : LabelEvent) : Prop :=
  match ev with
  | Snapshot lw => lw = t
  | _ => True
  end.

(** ** [CameraController] (lines 343-429) *)

Record Camera : Type := mkCamera {
  cameraPosition : vec3;
  cameraLookAt : vec3
}.

(** The camera and the target of the orbit controls; [controlsTarget] is
    [None] while [controlsRef.current] is null. *)
Record CameraRig : Type := mkCameraRig {
  camera : Camera;
  controlsTarget : option vec3
}.

Section CameraController.
Local Open Scope R_scope.

(** [wateredFlowerPosition] (lines 360-364). *)
Definition wateredFlowerPosition (wateredFlowerId : option string)
    (plantedFlowers : list PlantedFlower.t) : option vec3 :=
  match wateredFlowerId with
  | Some wid =>
      if negb (truthyStamp (Some wid)) || Nat.eqb (length plantedFlowers) 0
      then None
      else
        match List.find (fun flower => String.eqb (PlantedFlower.id flower) wid)
                        plantedFlowers with
        | Some wateredFlower => Some (PlantedFlower.position wateredFlower)
        | None => None
        end
  | None => None
  end.

(** [camera.position.set p; camera.lookAt t;
     if (controlsRef.current) controlsRef.current.target.set t]. *)
Definition frameCamera (p t : vec3) (rig : CameraRig) : CameraRig :=
  {| camera := {| cameraPosition := p; cameraLookAt := t |};
     controlsTarget :=
       match controlsTarget rig with
       | Some _ => Some t
       | None => None
       end |}.

(** The body of the framing effect (lines 366-415). *)
Definition cameraEffect (isPlanted : bool)
    (focusedFlowerPosition wateredFlowerPosition : option vec3)
    (stemHeight : R) (rig : CameraRig) : CameraRig :=
  if isPlanted then
    match wateredFlowerPosition with
    | Some (x, y, z) => frameCamera (x + 7, 9, z + 7) (x, y + 2, z) rig
    | None =>
        match focusedFlowerPosition with
        | Some (x, y, z) => frameCamera (x + 8, 8, z + 8) (x, y, z) rig
        | None => frameCamera (8, 8, 8) (0, 0, 0) rig
        end
    end
  else
    let flowerTotalHeight := stemHeight + 1 in
    let cameraHeight := Math.max 5 (flowerTotalHeight * 1.2) in
    let cameraDistance := Math.max 4 (flowerTotalHeight * 1.0) in
    let lookAtHeight := stemHeight * 0.3 in
    frameCamera (0, cameraHeight, cameraDistance) (0, lookAtHeight, 0) rig.

(** The controller: the memoised lookup feeding the effect. *)
Definition CameraController (isPlanted : bool)
    (focusedFlowerPosition : option vec3) (wateredFlowerId : option string)
    (plantedFlowers : list PlantedFlower.t) (stemHeight : R)
    (rig : CameraRig) : CameraRig :=
  cameraEffect isPlanted focusedFlowerPosition
    (wateredFlowerPosition wateredFlowerId plantedFlowers) stemHeight rig.

End CameraController.

(** A stored flower with the given id and position and the shape of the
    editor's initial flower. *)
Definition examplePlanted (id : string) (position : vec3) : PlantedFlower.t :=
  {| PlantedFlower.id := id;
     PlantedFlower.username := "gardener";
     PlantedFlower.petalCount := 8;
     PlantedFlower.petalLength := 1;
     PlantedFlower.petalWidth := 0.5;
     PlantedFlower.stemHeight := 3;
     PlantedFlower.petalColor := "#ff6b6b";
     PlantedFlower.centerColor := "#feca57";
     PlantedFlower.stemColor := "#1dd1a1";
     PlantedFlower.seed := 0.42;
     PlantedFlower.position := position;
     PlantedFlower.plantedAt := "2024-05-01T10:00:00.000Z";
     PlantedFlower.lastWatered := None;
     PlantedFlower.waterCount := None |}.

(** ** The storage adapter (flower-storage.ts) *)

Module Storage.

(** A JSON value as the store returns it in a column. *)
#[warnings="-register-all"]
Inductive jsval : Type :=
| JUndefined
| JNull
| JBool (b : bool)
| JNum (r : R)
| JStr (s : string)
| JArr (items : list jsval)
| JObj (fields : list (string * jsval)).

(** JavaScript truthiness. *)
Definition truthy (v : jsval) : bool :=
  match v with
  | JUndefined | JNull => false
  | JBool b => b
  | JNum r => if Req_dec_T r 0 then false else true
  | JStr s => negb (String.eqb s "")
  | JArr _ | JObj _ => true
  end.

(** [a || b]. *)
Definition orElse (a b : jsval) : jsval := if truthy a then a else b.

(** [Array.isArray(v) && v.length === 3]. *)
Definition isTriple (v : jsval) : bool :=
  match v with
  | JArr items => Nat.eqb (length items) 3
  | _ => false
  end.

(** [flower.k]: reading a property that is absent gives [undefined]. *)
Definition getProp (flower : gmap string jsval) (k : string) : jsval :=
  default JUndefined (flower !! k).

(** The default position [[0, 0, 0]]. *)
Definition origin : jsval := JArr [JNum 0; JNum 0; JNum 0].

(** [new Date(0).toISOString()]. *)
Definition epoch : jsval := JStr "1970-01-01T00:00:00.000Z".

(** The callback of [map] in [getPlantedFlowers] (lines 36-44): the spread
    of the row with three properties written over it. *)
Definition normalizeFlower (flower : gmap string jsval) : gmap string jsval :=
  <["lastWatered" := getProp flower "lastWatered"]>
    (<["plantedAt" := orElse (getProp flower "plantedAt") epoch]>
       (<["position" := if isTriple (getProp flower "position")
                         then getProp flower "position" else origin]>
          flower)).

(** What the store answers to a query: [{ data, error }], each possibly
    null. *)
Record Response : Type := mkResponse {
  data : option (list (gmap string jsval));
  error : option jsval
}.

(** What a call leaves behind: the value its promise resolves to and the
    lines written with [console.error]. *)
Record Outcome (A : Type) : Type := mkOutcome {
  returned : A;
  logged : list (string * jsval)
}.

Arguments mkOutcome {A} _ _.
Arguments returned {A} _.
Arguments logged {A} _.

(** [getPlantedFlowers] (lines 25-45), given the answer of the store. *)
Definition getPlantedFlowers (resp : Response)
    : Outcome (list (gmap string jsval)) :=
  match error resp with
  | Some e => mkOutcome [] [("Error fetching flowers:"%string, e)]
  | None => mkOutcome (map normalizeFlower (default [] (data resp))) []
  end.

(** [getUserFlowers] (lines 96-120), given the answer to the filtered
    query. *)
Definition getUserFlowers (resp : Response)
    : Outcome (list (gmap string jsval)) :=
  match error resp with
  | Some e => mkOutcome [] [("Error fetching user flowers:"%string, e)]
  | None =>
      mkOutcome
        (map (fun flower : gmap string jsval =>
                <["lastWatered" := getProp flower "lastWatered"]>
                  (<["plantedAt" := orElse (getProp flower "plantedAt") epoch]>
                     (<["position" := if isTriple (getProp flower "position")
                                       then getProp flower "position"
                                       else origin]>
                        flower)))
             (default [] (data resp)))
        []
  end.

(** A stored row whose position is corrupt and whose plantedAt is
    missing, a well-formed row, and the answer of the store holding both. *)
Definition corruptRow : gmap string jsval :=
  {[ "id"%string := JStr "a"; "position"%string := JStr "oops" ]}.

Definition soundRow : gmap string jsval :=
  {[ "id"%string := JStr "b";
     "position"%string := JArr [JNum 1; JNum 0; JNum 2];
     "plantedAt"%string := JStr "2024-05-01T10:00:00.000Z" ]}.

Definition exampleResponse : Response :=
  {| data := Some [corruptRow; soundRow]; error := None |}.

Definition failedResponse : Response :=
  {| data := None; error := Some (JStr "connection refused") |}.

End Storage.

(** ** [Flower]: the static structure (lines 308-340) *)

(** The stem [<mesh>]: its position and the [cylinderGeometry] arguments
    (top radius, bottom radius, height, radial segments). *)
Record StemMesh : Type := mkStemMesh {
  stemPosition : vec3;
  radiusTop : R;
  radiusBottom : R;
  cylinderHeight : R;
  radialSegments : Z
}.

(** A leaf [<mesh>]: position, rotation and [planeGeometry] arguments. *)
Record LeafMesh : Type := mkLeafMesh {
  leafPosition : vec3;
  leafRotation : vec3;
  leafPlane : R * R
}.

Section FlowerStructure.
Local Open Scope R_scope.

Definition Flower_stem (stemHeight : R) : StemMesh :=
  {| stemPosition := (0, stemHeight / 2, 0);
     radiusTop := 0.1;
     radiusBottom := 0.15;
     cylinderHeight := stemHeight;
     radialSegments := 8 |}.

Definition Flower_leaves (stemHeight : R) : list LeafMesh :=
  [ {| leafPosition := (0, stemHeight * 0.3, 0);
       leafRotation := (Math.PI / 2, 0, Math.PI / 4);
       leafPlane := (0.4, 0.8) |};
    {| leafPosition := (0, stemHeight * 0.6, 0);
       leafRotation := (Math.PI / 2, 0, - Math.PI / 4);
       leafPlane := (0.4, 0.6) |} ].

(** The three groups as React mounts them: the stem group and the petal
    group at the origin, the flower-head group at the tip of the stem. *)
Definition Flower_refs (stemHeight : R) : FlowerRefs :=
  {| flowerGroup := Some {| groupRotation := (0, 0, 0);
                            groupPosition := (0, stemHeight, 0) |};
     stemGroup := Some {| groupRotation := (0, 0, 0);
                          groupPosition := (0, 0, 0) |};
     petalGroup := Some {| groupRotation := (0, 0, 0);
                           groupPosition := (0, 0, 0) |} |}.

(** The animation of a mounted [Flower] after the frames at the elapsed
    times [times], in turn. *)
Definition Flower_animate (p : FlowerProps) (times : list R) : FlowerRefs :=
  fold_left (fun refs t => useFrame (windParams (seed p)) (stemHeight p) t refs)
            times (Flower_refs (stemHeight p)).

End FlowerStructure.

(** ** [CameraController]: the props of [OrbitControls] (lines 417-428) *)

Record OrbitLimits : Type := mkOrbitLimits {
  enablePan : bool;
  enableZoom : bool;
  enableRotate : bool;
  minDistance : R;
  maxDistance : R;
  minPolarAngle : R;
  maxPolarAngle : R
}.

Section OrbitControls.
Local Open Scope R_scope.

Definition CameraController_controls (isPlanted : bool) (stemHeight : R)
    : OrbitLimits :=
  {| enablePan := true;
     enableZoom := true;
     enableRotate := true;
     minDistance := 2;
     maxDistance := if isPlanted then 30 else Math.max 15 (stemHeight * 3);
     minPolarAngle := if isPlanted then 0.1 else 0;
     maxPolarAngle := if isPlanted then Math.PI / 2 - 0.1 else Math.PI |}.

(** The square of the distance between two points. *)
Definition dist2 (a b : vec3) : R :=
  (vx a - vx b) * (vx a - vx b) + (vy a - vy b) * (vy a - vy b)
  + (vz a - vz b) * (vz a - vz b).

End OrbitControls.

(** ** [Math.random] and the code that draws from it *)

(** The state of the generator behind [Math.random]: the numbers it is
    going to return and how many of them have been drawn. *)
Record Rng : Type := mkRng {
  draws : nat -> R;
  cursor : nat
}.

(** [Math.random] returns a number in the half-open unit interval. *)
Definition unitDraws (g : Rng) : Prop :=
  forall n : nat, (0 <= draws g n < 1)%R.

(** A computation that draws random numbers. *)
Definition Rand (A : Type) : Type := Rng -> A * Rng.

Definition ret {A : Type} (a : A) : Rand A := fun g => (a, g).

Definition bind {A B : Type} (c : Rand A) (k : A -> Rand B) : Rand B :=
  fun g => let (a, g') := c g in k a g'.

Notation "x <- c ;; k" := (bind c (fun x => k))
  (at level 100, c at next level, right associativity).

(** [Math.abs x]. *)
Definition Math_abs (x : R) : R := Rabs x.

(** [Math.random()]. *)
Definition Math_random : Rand R :=
  fun g => (draws g (cursor g), {| draws := draws g; cursor := S (cursor g) |}).

(** [c] only returns values that satisfy [P], whatever was drawn before. *)
Definition ensures {A : Type} (c : Rand A) (P : A -> Prop) : Prop :=
  forall g : Rng, unitDraws g -> P (fst (c g)) /\ unitDraws (snd (c g)).

(** The colour [hsl(h, s%, l%)] of a template string, kept as its three
    numbers. *)
Record Hsl : Type := mkHsl {
  hue : R;
  saturation : R;
  lightness : R
}.

(** What [GrassBlade] renders: one [<mesh>]. *)
Record GrassMesh : Type := mkGrassMesh {
  grassPosition : vec3;
  grassRotation : vec3;
  grassPlane : R * R;
  grassColor : Hsl
}.

(** What [Dandelion] renders: a tilted group with a stem and a head. *)
Record DandelionGroup : Type := mkDandelionGroup {
  dandelionPosition : vec3;
  dandelionRotation : vec3;
  dandelionStemPosition : vec3;
  dandelionStemRadius : R;
  dandelionStemHeight : R;
  dandelionHeadPosition : vec3;
  dandelionHeadRadius : R
}.

(** The elements [Field] creates for its vegetation, with the index that
    forms their key ([grass-i], [dandelion-i]). *)
Inductive VegetationElement : Type :=
| GrassBladeElement (index : nat) (position : vec3) (height : R) (color : Hsl)
| DandelionElement (index : nat) (position : vec3) (stemHeight : R)
    (seedOffset : nat).

(** A background flower of [Field]: a scaled sphere. *)
Record BackgroundFlower : Type := mkBackgroundFlower {
  backgroundKey : nat;
  backgroundPosition : vec3;
  backgroundScale : vec3;
  backgroundRadius : R;
  backgroundColor : Hsl
}.

#[global] Instance Rlt_decision : RelDecision Rlt := Rlt_dec.

Section FieldComposer.
Local Open Scope R_scope.

(** [GrassBlade] (lines 32-48). *)
Definition GrassBlade (position : vec3) (height : R) (color : Hsl)
    : Rand GrassMesh :=
  r1 <- Math_random ;;
  let rotationY := r1 * Math.PI * 2 in
  r2 <- Math_random ;;
  let tiltX := (r2 - 0.5) * 0.2 in
  ret {| grassPosition := position;
         grassRotation := (tiltX, rotationY, 0);
         grassPlane := (0.05, height);
         grassColor := color |}.

(** [Dandelion] (lines 51-87); its local [random] is never called. *)
Definition Dandelion (position : vec3) (stemHeight : R) (seedOffset : nat)
    : Rand DandelionGroup :=
  r1 <- Math_random ;;
  let tiltX := (r1 - 0.5) * 0.3 in
  r2 <- Math_random ;;
  let tiltZ := (r2 - 0.5) * 0.3 in
  ret {| dandelionPosition := position;
         dandelionRotation := (tiltX, 0, tiltZ);
         dandelionStemPosition := (0, stemHeight / 2, 0);
         dandelionStemRadius := 0.01;
         dandelionStemHeight := stemHeight;
         dandelionHeadPosition := (0, stemHeight, 0);
         dandelionHeadRadius := 0.08 |}.

(** One iteration of the grass loop (lines 96-105). *)
Definition grassElement (size : R) (i : nat) : Rand VegetationElement :=
  r1 <- Math_random ;;
  let x := r1 * size - size / 2 in
  r2 <- Math_random ;;
  let z := r2 * size - size / 2 in
  r3 <- Math_random ;;
  let colorVariation := r3 * 20 - 10 in
  let grassColor := {| hue := 270; saturation := 60;
                       lightness := 25 + colorVariation |} in
  r4 <- Math_random ;;
  ret (GrassBladeElement i (x, 0.15, z) (0.2 + r4 * 0.2) grassColor).

(** One iteration of the dandelion loop (lines 110-115). *)
Definition dandelionElement (size : R) (i : nat) : Rand VegetationElement :=
  r1 <- Math_random ;;
  let x := r1 * size - size / 2 in
  r2 <- Math_random ;;
  let z := r2 * size - size / 2 in
  r3 <- Math_random ;;
  ret (DandelionElement i (x, 0, z) (0.3 + r3 * 0.2) i).

End FieldComposer.

(** [for (let i = 0; i < n; i++) items.push(body i)] for a body that
    draws: [n] iterations are left and [i] is the loop counter. *)
Fixpoint pushLoop {A : Type} (body : nat -> Rand A) (n : nat) (i : nat)
    : Rand (list A) :=
  match n with
  | O => ret []
  | S n' =>
      a <- body i ;;
      rest <- pushLoop body n' (S i) ;;
      ret (a :: rest)
  end.

Section FieldComposerLoops.
Local Open Scope R_scope.

(** [vegetation] (lines 91-119): a thousand grass blades, then thirty
    dandelions. *)
Definition vegetation (size : R) : Rand (list VegetationElement) :=
  grass <- pushLoop (grassElement size) 1000 0 ;;
  dandelions <- pushLoop (dandelionElement size) 30 0 ;;
  ret (grass ++ dandelions).

(** The callback of the background flowers (lines 133-146): [None] is the
    [null] returned near the centre. *)
Definition backgroundFlower (size : R) (i : nat) : Rand (option BackgroundFlower) :=
  r1 <- Math_random ;;
  let x := r1 * size - size / 2 in
  r2 <- Math_random ;;
  let z := r2 * size - size / 2 in
  if bool_decide (Math_abs x < 3) && bool_decide (Math_abs z < 3) then ret None
  else
    r3 <- Math_random ;;
    let scale := 0.3 + r3 * 0.4 in
    r4 <- Math_random ;;
    ret (Some {| backgroundKey := i;
                 backgroundPosition := (x, 0, z);
                 backgroundScale := (scale, scale, scale);
                 backgroundRadius := 0.3;
                 backgroundColor := {| hue := r4 * 360; saturation := 70;
                                       lightness := 60 |} |}).

(** [Array.from({ length: 15 }).map(callback)]. *)
Definition backgroundFlowers (size : R) : Rand (list (option BackgroundFlower)) :=
  pushLoop (backgroundFlower size) 15 0.

(** The default ground size of [Field]. *)
Definition Field_size : R := 30.

End FieldComposerLoops.

(** ** The editor page (src/app/page.tsx) *)

(** The state cells of [Home] that describe the flower being edited. *)
Record EditorState : Type := mkEditorState {
  editorPetalCount : Z;
  editorPetalLength : R;
  editorPetalWidth : R;
  editorStemHeight : R;
  editorPetalColor : string;
  editorCenterColor : string;
  editorStemColor : string;
  editorSeed : R
}.

(** The ranges of the four sliders (lines 299-345). *)
Record SliderRange : Type := mkSliderRange {
  sliderMin : R;
  sliderMax : R
}.

(** The argument of [plantFlower]:
    [Omit<PlantedFlower, "id" | "plantedAt">]. *)
Record FlowerData : Type := mkFlowerData {
  dataUsername : string;
  dataPetalCount : Z;
  dataPetalLength : R;
  dataPetalWidth : R;
  dataStemHeight : R;
  dataPetalColor : string;
  dataCenterColor : string;
  dataStemColor : string;
  dataSeed : R;
  dataPosition : vec3;
  dataLastWatered : stamp;
  dataWaterCount : option R
}.

Section EditorPage.
Local Open Scope R_scope.

Definition petalCountSlider : SliderRange := {| sliderMin := 3; sliderMax := 20 |}.

Definition petalLengthSlider : SliderRange := {| sliderMin := 0.5; sliderMax := 2 |}.

Definition petalWidthSlider : SliderRange := {| sliderMin := 0.1; sliderMax := 1 |}.

Definition stemHeightSlider : SliderRange := {| sliderMin := 1; sliderMax := 5 |}.

(** [const letters = "0123456789ABCDEF"]. *)
Definition letters : string := "0123456789ABCDEF".

(** [color += letters[Math.floor(Math.random() * 16)]]; an index outside
    the string reads [undefined], which [+=] appends as text. *)
Definition appendLetter (color : string) (r : R) : string :=
  match String.get (Z.to_nat (Int_part (r * 16))) letters with
  | Some c => (color ++ String c "")%string
  | None => (color ++ "undefined")%string
  end.

(** The loop of [randomColor]: [n] iterations are left. *)
Fixpoint randomColorLoop (n : nat) (color : string) : Rand string :=
  match n with
  | O => ret color
  | S n' =>
      r <- Math_random ;;
      randomColorLoop n' (appendLetter color r)
  end.

(** [randomColor] (lines 93-100). *)
Definition randomColor : Rand string := randomColorLoop 6 "#".

(** [generateNewFlower] (lines 85-108): the values it passes to the eight
    setters.  [Math.floor(r * 15) + 5] is an integer and is kept as one. *)
Definition generateNewFlower : Rand EditorState :=
  r1 <- Math_random ;;
  r2 <- Math_random ;;
  r3 <- Math_random ;;
  r4 <- Math_random ;;
  petalColor <- randomColor ;;
  centerColor <- randomColor ;;
  stemColor <- randomColor ;;
  r5 <- Math_random ;;
  ret {| editorPetalCount := (Int_part (r1 * 15) + 5)%Z;
         editorPetalLength := 0.5 + r2 * 1.5;
         editorPetalWidth := 0.1 + r3 * 0.9;
         editorStemHeight := 1 + r4 * 4;
         editorPetalColor := petalColor;
         editorCenterColor := centerColor;
         editorStemColor := stemColor;
         editorSeed := r5 |}.

(** [handlePlantFlower] (lines 110-130): the object it hands to
    [plantFlower] for a signed-in user. *)
Definition handlePlantFlower_flowerData (username : string) (e : EditorState)
    : Rand FlowerData :=
  r1 <- Math_random ;;
  let x := r1 * 20 - 10 in
  r2 <- Math_random ;;
  let z := r2 * 20 - 10 in
  let position : vec3 := (x, 0, z) in
  ret {| dataUsername := username;
         dataPetalCount := editorPetalCount e;
         dataPetalLength := editorPetalLength e;
         dataPetalWidth := editorPetalWidth e;
         dataStemHeight := editorStemHeight e;
         dataPetalColor := editorPetalColor e;
         dataCenterColor := editorCenterColor e;
         dataStemColor := editorStemColor e;
         dataSeed := editorSeed e;
         dataPosition := position;
         dataLastWatered := None;
         dataWaterCount := None |}.

(** The props [Home] passes to the scene for the flower being edited
    (lines 184-196). *)
Definition editorProps (e : EditorState) : FlowerProps :=
  {| petalCount := editorPetalCount e;
     petalLength := editorPetalLength e;
     petalWidth := editorPetalWidth e;
     stemHeight := editorStemHeight e;
     petalColor := editorPetalColor e;
     centerColor := editorCenterColor e;
     stemColor := editorStemColor e;
     seed := editorSeed e;
     isPlanted := Some false;
     username := None;
     position := None;
     lastWatered := None;
     id := None |}.

End EditorPage.

(** ** The storage adapter: writes (flower-storage.ts, lines 47-183) *)

Module StorageWrites.
Import Storage.

(** What the store answers to a query ending in [.single()]. *)
Record SingleResponse : Type := mkSingleResponse {
  singleData : option (gmap string jsval);
  singleError : option jsval
}.

(** What it answers to the query for the water count of one flower: the
    row, if any, with its [waterCount] column, a number or null. *)
Record CountResponse : Type := mkCountResponse {
  countData : option (option R);
  countError : option jsval
}.

(** An optional property of an object literal that is spread. *)
Definition insertOptional (k : string) (v : option jsval)
    (o : gmap string jsval) : gmap string jsval :=
  match v with
  | Some v' => <[k := v']> o
  | None => o
  end.

Definition JPosition (p : vec3) : jsval := JArr [JNum (vx p); JNum (vy p); JNum (vz p)].

(** The own properties of the argument, as [...flowerData] copies them. *)
Definition spreadFlowerData (d : FlowerData) : gmap string jsval :=
  insertOptional "waterCount" (JNum <$> dataWaterCount d)
    (insertOptional "lastWatered" (JStr <$> dataLastWatered d)
       (<["position" := JPosition (dataPosition d)]>
          (<["seed" := JNum (dataSeed d)]>
             (<["stemColor" := JStr (dataStemColor d)]>
                (<["centerColor" := JStr (dataCenterColor d)]>
                   (<["petalColor" := JStr (dataPetalColor d)]>
                      (<["stemHeight" := JNum (dataStemHeight d)]>
                         (<["petalWidth" := JNum (dataPetalWidth d)]>
                            (<["petalLength" := JNum (dataPetalLength d)]>
                               (<["petalCount" := JNum (IZR (dataPetalCount d))]>
                                  (<["username" := JStr (dataUsername d)]> ∅))))))))))).

(** [plantFlower]: the row it inserts (lines 52-72), [plantedAt] being the
    time read from the clock. *)
Definition plantFlower_insert (flowerData : FlowerData) (plantedAt : string)
    : gmap string jsval :=
  <["plantedAt" := JStr plantedAt]>
    (<["position" :=
         JPosition (plantFlower_position (dataPosition flowerData)
                                         (dataStemHeight flowerData))]>
       (spreadFlowerData flowerData)).

(** [plantFlower] (lines 48-94), given the time read from the clock and
    the answer of the store to the insertion. *)
Definition plantFlower (flowerData : FlowerData) (plantedAt : string)
    (resp : SingleResponse) : Outcome (option (gmap string jsval)) :=
  match singleError resp with
  | Some e => mkOutcome None [("Error planting flower:"%string, e)]
  | None =>
      match singleData resp with
      | Some data =>
          mkOutcome
            (Some (<["lastWatered" := getProp data "lastWatered"]>
                     (<["plantedAt" := orElse (getProp data "plantedAt")
                                              (JStr plantedAt)]>
                        (<["position" := if isTriple (getProp data "position")
                                          then getProp data "position"
                                          else origin]>
                           data))))
            []
      | None => mkOutcome None []
      end
  end.

(** What [waterFlower] does: the update it sends, if it sends one, and the
    outcome of the call. *)
Record Watering : Type := mkWatering {
  updateSent : option (string * gmap string jsval);
  watered : Outcome (option (gmap string jsval))
}.

(** [(currentFlower.waterCount || 0) + 1]. *)
Definition newWaterCount (waterCount : option R) : R :=
  match waterCount with
  | Some n => if Req_dec_T n 0 then (0 + 1)%R else (n + 1)%R
  | None => (0 + 1)%R
  end.

(** [waterFlower] (lines 123-171), given the answer to the query for the
    current count, the time read from the clock and the answer to the
    update. *)
Definition waterFlower (flowerId : string) (fetched : CountResponse)
    (lastWatered : string) (resp : SingleResponse) : Watering :=
  match countError fetched, countData fetched with
  | None, Some waterCount =>
      let payload : gmap string jsval :=
        <["waterCount" := JNum (newWaterCount waterCount)]>
          (<["lastWatered" := JStr lastWatered]> ∅) in
      {| updateSent := Some (flowerId, payload);
         watered :=
           match singleError resp with
           | Some e => mkOutcome None [("Error watering flower:"%string, e)]
           | None =>
               match singleData resp with
               | Some data =>
                   mkOutcome
                     (Some (<["lastWatered" := getProp data "lastWatered"]>
                              (<["plantedAt" := orElse (getProp data "plantedAt") epoch]>
                                 (<["position" := if isTriple (getProp data "position")
                                                   then getProp data "position"
                                                   else origin]>
                                    data))))
                     []
               | None => mkOutcome None []
               end
           end |}
  | fetchError, _ =>
      {| updateSent := None;
         watered :=
           mkOutcome None
             [("Error fetching flower for watering or flower not found:"%string,
               default JNull fetchError)] |}
  end.

(** [removeFlower] (lines 174-183), given the error of the deletion. *)
Definition removeFlower (error : option jsval) : Outcome bool :=
  match error with
  | Some e => mkOutcome false [("Error removing flower:"%string, e)]
  | None => mkOutcome true []
  end.

(** A record is fit to be drawn: its position is a 3-element array and
    its [plantedAt] is present. *)
Definition wellFormed (flower : gmap string jsval) : Prop :=
  isTriple (getProp flower "position") = true
  /\ truthy (getProp flower "plantedAt") = true.

End StorageWrites.

(** The pose of a mounted flower whose stem has height [h] and that sways
    within bounds: the head at the height of the stem tip and at most
    [0.033 * h] off the axis, the stem tilted by at most 0.033, the petal
    group turned by at most 0.02, 0.03 and 0.01. *)
Definition swaying (h : R) (refs : FlowerRefs) : Prop :=
  exists fg sg pg : Group,
    refs = {| flowerGroup := Some fg; stemGroup := Some sg; petalGroup := Some pg |}
    /\ vy (groupPosition fg) = h
    /\ (Rabs (vx (groupPosition fg)) <= 0.033 * h)%R
    /\ (Rabs (vz (groupPosition fg)) <= 0.033 * h)%R
    /\ (Rabs (vx (groupRotation sg)) <= 0.033)%R
    /\ (Rabs (vz (groupRotation sg)) <= 0.033)%R
    /\ (Rabs (vx (groupRotation pg)) <= 0.02)%R
    /\ (Rabs (vy (groupRotation pg)) <= 0.03)%R
    /\ (Rabs (vz (groupRotation pg)) <= 0.01)%R.

(** An event that brings no watering time other than [t]: it repeats [t],
    clears the time, or is no snapshot. *)
Definition keepsOrClears (t : stamp) (ev : LabelEvent) : Prop :=
  match ev with
  | Snapshot lw => lw = None \/ lw = t
  | _ => True
  end.

(** The droplet animation flag after a run of events, from the flag and the
    remembered time before it: a new timestamp raises the flag, the end of
    the animation lowers it, nothing else touches it. *)
Fixpoint flagAfter (flag : bool) (remembered : stamp) (evs : list LabelEvent) : bool :=
  match evs with
  | [] => flag
  | Snapshot lw :: evs' =>
      if waterEdge lw remembered then flagAfter true lw evs'
      else flagAfter flag remembered evs'
  | AnimationComplete :: evs' => flagAfter false remembered evs'
  | _ :: evs' => flagAfter flag remembered evs'
  end.

(** The key of a vegetation element: [grass-i] or [dandelion-i]. *)
Inductive VegetationKey : Type :=
| GrassKey (i : nat)
| DandelionKey (i : nat).

Definition elementKey (e : VegetationElement) : VegetationKey :=
  match e with
  | GrassBladeElement i _ _ _ => GrassKey i
  | DandelionElement i _ _ _ => DandelionKey i
  end.

(** A point over the square ground of side [size] centred at the origin. *)
Definition overGround (size : R) (p : vec3) : Prop :=
  (- size / 2 <= vx p < size / 2 /\ - size / 2 <= vz p < size / 2)%R.

(** A vegetation element as [Field] means it: over the ground, grass at
    height 0.15 with a blade of 0.2 to 0.4 and a purple of lightness 15 to
    35, a dandelion on the ground with a stem of 0.3 to 0.5. *)
Definition vegetationFits (size : R) (e : VegetationElement) : Prop :=
  match e with
  | GrassBladeElement _ position height color =>
      overGround size position /\ vy position = 0.15%R
      /\ (0.2 <= height < 0.4)%R
      /\ hue color = 270%R /\ saturation color = 60%R
      /\ (15 <= lightness color < 35)%R
  | DandelionElement i position stemHeight seedOffset =>
      overGround size position /\ vy position = 0%R
      /\ (0.3 <= stemHeight < 0.5)%R /\ seedOffset = i
  end.

(** A slot of the background flowers as [Field] means it: empty, or a
    sphere on the ground, over it, outside the central square of side 6,
    scaled alike in the three directions by 0.3 to 0.7. *)
Definition backgroundFits (size : R) (slot : option BackgroundFlower) : Prop :=
  match slot with
  | None => True
  | Some b =>
      overGround size (backgroundPosition b)
      /\ vy (backgroundPosition b) = 0%R
      /\ (3 <= Rabs (vx (backgroundPosition b))
          \/ 3 <= Rabs (vz (backgroundPosition b)))%R
      /\ (exists s : R, backgroundScale b = (s, s, s) /\ 0.3 <= s < 0.7)%R
      /\ (0 <= hue (backgroundColor b) < 360)%R
  end.

(** One of the sixteen characters of [letters]. *)
Definition isHexDigit (c : Ascii.ascii) : Prop :=
  In c (list_ascii_of_string letters).

(** A colour as [randomColor] writes it: a hash sign and six hexadecimal
    digits. *)
Definition hexColor (color : string) : Prop :=
  exists digits : string,
    color = ("#" ++ digits)%string
    /\ String.length digits = 6%nat
    /\ Forall isHexDigit (list_ascii_of_string digits).

(** A value within the range of a slider, ends included. *)
Definition onSlider (s : SliderRange) (v : R) : Prop :=
  (sliderMin s <= v <= sliderMax s)%R.

(** A flower as [generateNewFlower] draws it: 5 to 19 petals, a petal
    length from 0.5 to 2, a petal width from 0.1 to 1 and a stem height
    from 1 to 5 (upper ends excluded), each within its slider, a seed in
    the unit interval and three well-formed colours. *)
Definition generatedFits (e : EditorState) : Prop :=
  (5 <= editorPetalCount e <= 19)%Z
  /\ onSlider petalCountSlider (IZR (editorPetalCount e))
  /\ (0.5 <= editorPetalLength e < 2)%R
  /\ onSlider petalLengthSlider (editorPetalLength e)
  /\ (0.1 <= editorPetalWidth e < 1)%R
  /\ onSlider petalWidthSlider (editorPetalWidth e)
  /\ (1 <= editorStemHeight e < 5)%R
  /\ onSlider stemHeightSlider (editorStemHeight e)
  /\ (0 <= editorSeed e < 1)%R
  /\ hexColor (editorPetalColor e)
  /\ hexColor (editorCenterColor e)
  /\ hexColor (editorStemColor e).

(** ** Example inputs *)

(** The argument of [plantFlower] for the editor's first flower, planted
    by the example owner at the given spot. *)
Definition exampleFlowerData : FlowerData :=
  {| dataUsername := "gardener";
     dataPetalCount := 8;
     dataPetalLength := 1%R;
     dataPetalWidth := 0.5%R;
     dataStemHeight := 4.5%R;
     dataPetalColor := "#ff6b6b";
     dataCenterColor := "#feca57";
     dataStemColor := "#1dd1a1";
     dataSeed := 0.42%R;
     dataPosition := (1%R, 0%R, 2%R);
     dataLastWatered := None;
     dataWaterCount := None |}.


(** Props asking for no petals. *)
Definition barePropsExample : FlowerProps :=
  {| petalCount := 0; petalLength := 1; petalWidth := 0.5; stemHeight := 3;
     petalColor := "#ff6b6b"; centerColor := "#feca57"; stemColor := "#1dd1a1";
     seed := 0.42; isPlanted := None; username := None; position := None;
     lastWatered := None; id := None |}.

(* ===================================================================== *)
(** * Part II.  Lemmas and theorems                                       *)
(* ===================================================================== *)

Section RandomGeneratorFacts.
Local Open Scope R_scope.

Lemma floor_le (x : R) : Math.floor x <= x.
Proof. unfold Math.floor. destruct (base_Int_part x); lra. Qed.

Lemma floor_gt (x : R) : x < Math.floor x + 1.
Proof. unfold Math.floor. destruct (base_Int_part x); lra. Qed.

(** The fractional part taken by the generator lies in [[0, 1)]. *)
Lemma fract_range (x : R) : 0 <= x - Math.floor x < 1.
Proof. pose proof (floor_le x). pose proof (floor_gt x). lra. Qed.

Lemma random_range (seed min max off : R) :
  min < max ->
  min <= createRandomGenerator seed min max off < max.
Proof.
  intros Hlt. unfold createRandomGenerator. cbv zeta.
  set (x := Math.sin (seed + off) * 10000).
  destruct (fract_range x) as [H0 H1].
  split; nra.
Qed.

(** The draw is the unit draw rescaled: [min] and [max] only enter through
    the final affine map. *)
Lemma random_affine (seed min max off : R) :
  createRandomGenerator seed min max off
  = min + createRandomGenerator seed 0 1 off * (max - min).
Proof. unfold createRandomGenerator. cbv zeta. ring. Qed.

(** The seed and the offset only enter through their sum. *)
Lemma random_sum (seed seed' min max off off' : R) :
  seed + off = seed' + off' ->
  createRandomGenerator seed min max off
  = createRandomGenerator seed' min max off'.
Proof. intros E. unfold createRandomGenerator. now rewrite E. Qed.

(** C2.  For every seed, every offset and every [min < max], the value of
    [random(min, max, offset)] is determined by the seed and the offset
    (two calls with identical inputs return the same number) and lies in
    the half-open interval from [min] (included) to [max] (excluded). *)
Theorem random_deterministic_in_range (seed off min max : R) :
  min < max ->
  (forall seed' off' : R,
      seed' = seed -> off' = off ->
      createRandomGenerator seed' min max off'
      = createRandomGenerator seed min max off)
  /\ min <= createRandomGenerator seed min max off < max.
Proof.
  intros Hlt. split.
  - intros seed' off' -> ->. reflexivity.
  - now apply random_range.
Qed.

Lemma random_deterministic_in_range_witness :
  0 <= createRandomGenerator 0.42 0 0.2 7 < 0.2.
Proof.
  apply (random_deterministic_in_range 0.42 7 0 0.2). lra.
Defined.

End RandomGeneratorFacts.

(** ** The petal loop *)

Section PetalLoopFacts.
Context {A : Type}.
Implicit Types (body : Z -> A) (n k : nat) (i : Z).

Lemma petalLoop_length body n i : length (petalLoop body n i) = n.
Proof. revert i. induction n as [|n IH]; intros i; simpl; [reflexivity|]. now rewrite IH. Qed.

Lemma petalLoop_lookup body n i k :
  (k < n)%nat -> petalLoop body n i !! k = Some (body (i + Z.of_nat k)%Z).
Proof.
  revert i k. induction n as [|n IH]; intros i k Hk; [lia|].
  destruct k as [|k]; simpl.
  - do 2 f_equal. lia.
  - rewrite IH by lia. do 2 f_equal. lia.
Qed.

Lemma petalLoop_lookup_inv body n i k (a : A) :
  petalLoop body n i !! k = Some a ->
  (k < n)%nat /\ a = body (i + Z.of_nat k)%Z.
Proof.
  intros H. assert (Hk : (k < n)%nat).
  { apply lookup_lt_Some in H. now rewrite petalLoop_length in H. }
  split; [exact Hk|]. rewrite petalLoop_lookup in H by exact Hk. congruence.
Qed.

Lemma petalLoop_ext body body' n i :
  (forall j, body j = body' j) -> petalLoop body n i = petalLoop body' n i.
Proof.
  intros E. revert i. induction n as [|n IH]; intros i; simpl; [reflexivity|].
  now rewrite E, IH.
Qed.

Lemma petalLoop_map {B : Type} (f : A -> B) body n i :
  map f (petalLoop body n i) = petalLoop (fun j => f (body j)) n i.
Proof.
  revert i. induction n as [|n IH]; intros i; simpl; [reflexivity|].
  now rewrite IH.
Qed.

End PetalLoopFacts.

(** ** Petal layout *)

Section PetalFacts.
Local Open Scope R_scope.

Lemma meshLayout_petalMesh (c : string) (i : Z) (s : Petal.t) :
  meshLayout (petalMesh c i s) = s.
Proof.
  destruct s as [a l w b]. unfold meshLayout, petalMesh, vx, vz. simpl.
  f_equal; field.
Qed.

(** The layout is what the mesh elements carry. *)
Lemma petals_layout (p : FlowerProps) :
  map meshLayout (petals p) = petalLayout p.
Proof.
  unfold petals, petalLayout. rewrite petalLoop_map.
  apply petalLoop_ext. intros j. apply meshLayout_petalMesh.
Qed.

Lemma petals_length (p : FlowerProps) :
  length (petals p) = Z.to_nat (petalCount p).
Proof. apply petalLoop_length. Qed.

(** The layout depends on four properties only. *)
Lemma petalLayout_four (p q : FlowerProps) :
  petalCount p = petalCount q -> petalLength p = petalLength q ->
  petalWidth p = petalWidth q -> seed p = seed q ->
  petalLayout p = petalLayout q.
Proof. unfold petalLayout. now intros -> -> -> ->. Qed.

(** The meshes depend on the dependency array only. *)
Lemma petals_deps (p q : FlowerProps) :
  petalDeps p = petalDeps q -> petals p = petals q.
Proof.
  unfold petalDeps, petals. intros E.
  injection E as -> -> -> -> ->. reflexivity.
Qed.

Lemma usePetals_coherent cell p : coherent cell -> coherent (snd (usePetals cell p)).
Proof.
  intros Hc. unfold usePetals. destruct cell as [[deps value]|]; simpl.
  - destruct (bool_decide (deps = petalDeps p)); simpl; [exact Hc|].
    intros q E. now apply petals_deps.
  - intros q E. now apply petals_deps.
Qed.

Lemma usePetals_value cell p : coherent cell -> fst (usePetals cell p) = petals p.
Proof.
  intros Hc. unfold usePetals. destruct cell as [[deps value]|]; simpl; [|reflexivity].
  destruct (bool_decide_reflect (deps = petalDeps p)) as [E|E]; simpl; [|reflexivity].
  apply Hc. now symmetry.
Qed.

Lemma history_coherent (history : list FlowerProps) cell :
  coherent cell ->
  coherent (fold_left (fun c q => snd (usePetals c q)) history cell).
Proof.
  revert cell. induction history as [|q history IH]; intros cell Hc; simpl; [exact Hc|].
  apply IH. now apply usePetals_coherent.
Qed.

(** Whatever was rendered before, the petals shown are those computed from
    the current props. *)
Lemma shownPetals_fresh (history : list FlowerProps) (p : FlowerProps) :
  shownPetals history p = petals p.
Proof.
  unfold shownPetals. apply usePetals_value. now apply history_coherent.
Qed.

(** C1.  Two flower instances whose [petalCount], [petalLength],
    [petalWidth] and [seed] agree show the same ordered sequence of petal
    parameters (angle, length, width, bend), whatever their other props
    (colours, stem height, position, owner, watering time) and whatever
    each of them rendered before: nothing but the four parameters
    influences the layout. *)
Theorem petal_layout_deterministic
    (history1 history2 : list FlowerProps) (p q : FlowerProps) :
  petalCount p = petalCount q ->
  petalLength p = petalLength q ->
  petalWidth p = petalWidth q ->
  seed p = seed q ->
  map meshLayout (shownPetals history1 p) = map meshLayout (shownPetals history2 q)
  /\ map meshLayout (shownPetals history1 p) = petalLayout p.
Proof.
  intros Hc Hl Hw Hs. rewrite !shownPetals_fresh, !petals_layout.
  split; [now apply petalLayout_four | reflexivity].
Qed.

Lemma petal_layout_deterministic_witness :
  map meshLayout
      (shownPetals [initialProps 5 0.1 None] (initialProps 3 0.42 None))
  = map meshLayout
      (shownPetals [] (initialProps 6 0.42 (Some (1, 0, 2)))).
Proof.
  apply (petal_layout_deterministic
           [initialProps 5 0.1 None] []
           (initialProps 3 0.42 None) (initialProps 6 0.42 (Some (1, 0, 2))));
    reflexivity.
Defined.

(** The angle of the petal of index [i]. *)
Lemma petalSpec_angle (n : Z) (l w s : R) (i : Z) :
  Petal.angle (petalSpec n l w s i) = IZR i / IZR n * Math.PI * 2.
Proof. reflexivity. Qed.

Lemma Math_PI_pos : 0 < Math.PI.
Proof. exact PI_RGT_0. Qed.

Lemma angle_lt (n i j : Z) :
  (0 < n)%Z -> (i < j)%Z ->
  IZR i / IZR n * Math.PI * 2 < IZR j / IZR n * Math.PI * 2.
Proof.
  intros Hn Hij. pose proof Math_PI_pos as Hpi.
  apply IZR_lt in Hn. apply IZR_lt in Hij.
  assert (H : IZR i / IZR n < IZR j / IZR n).
  { unfold Rdiv. apply Rmult_lt_compat_r; [|exact Hij].
    now apply Rinv_0_lt_compat. }
  nra.
Qed.

(** C3.  For a petal count [N >= 1] the layout has exactly [N] petals, the
    petal of index [i] has angle [i / N * 2 * PI], the angles strictly
    increase with the index, and every angle lies in the half-open interval
    from 0 (included) to [2 * PI] (excluded). *)
Theorem petal_angles (p : FlowerProps) :
  (1 <= petalCount p)%Z ->
  length (petalLayout p) = Z.to_nat (petalCount p)
  /\ length (petals p) = Z.to_nat (petalCount p)
  /\ (forall i : nat, (i < Z.to_nat (petalCount p))%nat ->
        Petal.angle <$> (petalLayout p !! i)
        = Some (INR i / IZR (petalCount p) * Math.PI * 2))
  /\ (forall (i j : nat) (a b : Petal.t),
        (i < j)%nat ->
        petalLayout p !! i = Some a -> petalLayout p !! j = Some b ->
        Petal.angle a < Petal.angle b)
  /\ (forall (i : nat) (a : Petal.t),
        petalLayout p !! i = Some a ->
        0 <= Petal.angle a < 2 * Math.PI).
Proof.
  intros HN. unfold petalLayout.
  split; [apply petalLoop_length|].
  split; [apply petals_length|].
  split; [|split].
  - intros i Hi. rewrite petalLoop_lookup by exact Hi. simpl.
    rewrite INR_IZR_INZ. reflexivity.
  - intros i j a b Hij Ha Hb.
    apply petalLoop_lookup_inv in Ha as [Hi ->].
    apply petalLoop_lookup_inv in Hb as [Hj ->].
    rewrite !petalSpec_angle. apply angle_lt; lia.
  - intros i a Ha. apply petalLoop_lookup_inv in Ha as [Hi ->].
    rewrite petalSpec_angle. pose proof Math_PI_pos as Hpi.
    assert (Hn : 0 < IZR (petalCount p)) by (apply IZR_lt; lia).
    assert (H0 : 0 <= IZR (0 + Z.of_nat i)) by (apply IZR_le; lia).
    assert (H1 : IZR (0 + Z.of_nat i) < IZR (petalCount p)) by (apply IZR_lt; lia).
    assert (Hq : 0 <= IZR (0 + Z.of_nat i) / IZR (petalCount p) < 1).
    { split.
      - apply Rmult_le_pos; [exact H0|]. left. now apply Rinv_0_lt_compat.
      - apply Rmult_lt_reg_r with (IZR (petalCount p)); [exact Hn|].
        unfold Rdiv. rewrite Rmult_assoc, Rinv_l by lra. lra. }
    split; nra.
Qed.

Lemma petal_angles_witness :
  length (petalLayout (initialProps 3 0.42 None)) = 8%nat.
Proof.
  apply (petal_angles (initialProps 3 0.42 None)). simpl. lia.
Defined.

End PetalFacts.

(** ** Wind animation *)

Section WindFacts.
Local Open Scope R_scope.

Lemma Math_sin_bound (a : R) : -1 <= Math.sin a <= 1.
Proof. exact (SIN_bound a). Qed.

Lemma Math_cos_bound (a : R) : -1 <= Math.cos a <= 1.
Proof. exact (COS_bound a). Qed.

(** Scaling by a factor of absolute value at most 1 does not grow a
    number. *)
Lemma Rabs_mul_unit (u c b : R) :
  Rabs u <= b -> -1 <= c <= 1 -> Rabs (u * c) <= b.
Proof.
  intros Hu Hc. rewrite Rabs_mult.
  assert (Hc' : Rabs c <= 1) by (apply Rabs_le; lra).
  pose proof (Rabs_pos u). pose proof (Rabs_pos c). nra.
Qed.

Lemma directedWindX_bound (w : WindParams) (time : R) :
  0 <= strength w -> 0 <= turbulence w ->
  Rabs (directedWindX w time) <= strength w + 0.05 * turbulence w.
Proof.
  intros Hs Ht. unfold directedWindX, windX, turbulenceX.
  apply Rabs_mul_unit; [|apply Math_cos_bound].
  pose proof (Math_sin_bound (time * speed w)).
  pose proof (Math_sin_bound (time * 2.5 * speed w)).
  apply Rabs_le. split; nra.
Qed.

Lemma directedWindZ_bound (w : WindParams) (time : R) :
  0 <= strength w -> 0 <= turbulence w ->
  Rabs (directedWindZ w time) <= 0.7 * strength w + 0.04 * turbulence w.
Proof.
  intros Hs Ht. unfold directedWindZ, windZ, turbulenceZ.
  apply Rabs_mul_unit; [|apply Math_sin_bound].
  pose proof (Math_cos_bound (time * speed w + 0.3)).
  pose proof (Math_cos_bound (time * 2.7 * speed w)).
  apply Rabs_le. split; nra.
Qed.

(** The ranges of the four wind parameters derived from a seed. *)
Lemma windParams_range (seed : R) :
  0.5 <= speed (windParams seed) < 1.5
  /\ 0.05 <= strength (windParams seed) < 0.15
  /\ 0.1 <= turbulence (windParams seed) < 0.3
  /\ 0 <= direction (windParams seed) < 2 * Math.PI.
Proof.
  pose proof Math_PI_pos as Hpi. unfold windParams. simpl.
  pose proof (random_range seed 0.5 1.5 42).
  pose proof (random_range seed 0.05 0.15 13).
  pose proof (random_range seed 0.1 0.3 27).
  pose proof (random_range seed 0 (Math.PI * 2) 99).
  repeat split; lra.
Qed.

(** C4.  For the wind parameters derived from any seed and any elapsed
    time [t]: [windX = sin(t*speed)*strength] and
    [windZ = cos(t*speed + 0.3)*strength*0.7]; at [t = 0] the wind and
    turbulence terms take their closed-form values, [windX(0) = 0] in
    particular; and both directed outputs stay, in absolute value, within
    [strength + turbulence]. *)
Theorem wind_closed_form_and_bound (seed t : R) :
  let w := windParams seed in
  windX w t = Math.sin (t * speed w) * strength w
  /\ windZ w t = Math.cos (t * speed w + 0.3) * strength w * 0.7
  /\ windX w 0 = 0
  /\ windZ w 0 = Math.cos 0.3 * strength w * 0.7
  /\ turbulenceX w 0 = 0
  /\ turbulenceZ w 0 = turbulence w * 0.04
  /\ directedWindX w 0 = 0
  /\ Rabs (directedWindX w t) <= 1 * (strength w + turbulence w)
  /\ Rabs (directedWindZ w t) <= 1 * (strength w + turbulence w).
Proof.
  intros w. destruct (windParams_range seed) as (_ & Hs & Ht & _).
  fold w in Hs, Ht. clearbody w.
  assert (S0 : forall a, Math.sin (0 * a) = 0).
  { intros a. rewrite Rmult_0_l. exact sin_0. }
  assert (C0 : forall a, Math.cos (0 * a) = 1).
  { intros a. rewrite Rmult_0_l. exact cos_0. }
  repeat split.
  - unfold windX. rewrite S0. ring.
  - unfold windZ. rewrite Rmult_0_l, Rplus_0_l. reflexivity.
  - unfold turbulenceX. rewrite (Rmult_assoc 0 2.5), S0. ring.
  - unfold turbulenceZ. rewrite (Rmult_assoc 0 2.7), C0. ring.
  - unfold directedWindX, windX, turbulenceX.
    rewrite (Rmult_assoc 0 2.5), !S0. ring.
  - pose proof (directedWindX_bound w t). lra.
  - pose proof (directedWindZ_bound w t). lra.
Qed.

(** What the frame callback writes is bounded as well: the stem tilt and,
    up to the stem height, the displacement of the flower head. *)
Lemma useFrame_stem_bound (seed h t : R) (fg sg pg sg' : Group) :
  stemGroup (useFrame (windParams seed) h t
               {| flowerGroup := Some fg; stemGroup := Some sg;
                  petalGroup := Some pg |}) = Some sg' ->
  Rabs (vx (groupRotation sg')) <= 0.2 * 0.165
  /\ Rabs (vz (groupRotation sg')) <= 0.2 * 0.165
  /\ vy (groupRotation sg') = vy (groupRotation sg).
Proof.
  intros H. unfold useFrame in H. simpl in H.
  injection H as <-. unfold vx, vz. simpl.
  destruct (windParams_range seed) as (_ & Hs & Ht & _).
  pose proof (directedWindX_bound (windParams seed) t).
  pose proof (directedWindZ_bound (windParams seed) t).
  split; [|split; [|reflexivity]].
  - rewrite Rabs_mult, (Rabs_pos_eq 0.2) by lra. lra.
  - rewrite Rabs_mult, Rabs_Ropp, (Rabs_pos_eq 0.2) by lra. lra.
Qed.

(** While a ref is still null the callback changes nothing. *)
Lemma useFrame_unmounted (w : WindParams) (h t : R) (refs : FlowerRefs) :
  flowerGroup refs = None \/ stemGroup refs = None \/ petalGroup refs = None ->
  useFrame w h t refs = refs.
Proof.
  unfold useFrame.
  destruct (flowerGroup refs), (stemGroup refs), (petalGroup refs);
    intros [H|[H|H]]; congruence.
Qed.

End WindFacts.

(** ** Vertical placement *)

Section PlacementFacts.
Local Open Scope R_scope.

(** The position written by the field view, by cases on the stem height. *)
Lemma PlantedFlowerWithLabel_position_cases (props : FlowerProps) :
  let p0 := default (0, 0, 0) (position props) in
  (stemHeight props <= 4 -> PlantedFlowerWithLabel_position props = p0)
  /\ (stemHeight props > 4 ->
      PlantedFlowerWithLabel_position props
      = (vx p0, - ((stemHeight props - 4) * 0.15), vz p0)).
Proof.
  intros p0. subst p0. unfold PlantedFlowerWithLabel_position.
  destruct (position props) as [[[x y] z]|]; unfold vx, vy, vz; simpl;
    (split; intros H; destruct (Rgt_dec (stemHeight props) 4);
     try lra; try reflexivity;
     unfold Math.max; rewrite Rmax_right by lra; reflexivity).
Qed.

(** C6.  The field view leaves the plant where it is (vertical offset 0)
    when [stemHeight <= 4], and puts it at height
    [-(stemHeight - 4) * 0.15] when [stemHeight > 4]; a stem height of 6
    gives [-0.3].  A plant planted on the ground ([y = 0]) is thus drawn at
    height 0 up to a stem height of 4 and at [-(stemHeight - 4) * 0.15]
    above it. *)
Theorem vertical_offset_rule (props : FlowerProps) :
  let p0 := default (0, 0, 0) (position props) in
  let placed := PlantedFlowerWithLabel_position props in
  (stemHeight props <= 4 -> placed = p0 /\ vy placed - vy p0 = 0)
  /\ (stemHeight props > 4 ->
      vy placed = - (stemHeight props - 4) * 0.15
      /\ vx placed = vx p0 /\ vz placed = vz p0)
  /\ (stemHeight props = 6 -> vy placed = -0.3)
  /\ (vy p0 = 0 -> stemHeight props <= 4 -> vy placed = 0).
Proof.
  intros p0 placed.
  destruct (PlantedFlowerWithLabel_position_cases props) as [Hle Hgt].
  fold p0 in Hle, Hgt. fold placed in Hle, Hgt.
  split; [|split; [|split]].
  - intros H. rewrite (Hle H). split; [reflexivity | ring].
  - intros H. rewrite (Hgt H). unfold vx, vy, vz. simpl.
    split; [ring | split; reflexivity].
  - intros H. rewrite Hgt by lra. unfold vy. simpl. rewrite H. lra.
  - intros H0 H. now rewrite (Hle H).
Qed.

Lemma vertical_offset_rule_witness :
  vy (PlantedFlowerWithLabel_position (initialProps 6 0.42 (Some (1, 0, 2))))
  = -0.3
  /\ PlantedFlowerWithLabel_position (initialProps 3 0.42 (Some (1, 0, 2)))
     = (1, 0, 2).
Proof.
  split.
  - apply (vertical_offset_rule (initialProps 6 0.42 (Some (1, 0, 2)))).
    reflexivity.
  - apply (vertical_offset_rule (initialProps 3 0.42 (Some (1, 0, 2)))).
    simpl. lra.
Defined.

Lemma plantFlower_position_cases (pos : vec3) (h : R) :
  (h <= 4 -> plantFlower_position pos h = pos)
  /\ (h > 4 -> plantFlower_position pos h = (vx pos, - ((h - 4) * 0.15), vz pos)).
Proof.
  unfold plantFlower_position. destruct pos as [[x y] z]. unfold vx, vy, vz. simpl.
  split; intros H; destruct (Rgt_dec h 4); try lra; try reflexivity.
  unfold Math.max. rewrite Rmax_right by lra. reflexivity.
Qed.

Lemma singleFlowerYOffset_cases (h : R) :
  (h <= 2 -> singleFlowerYOffset h = -0.5)
  /\ (2 <= h -> singleFlowerYOffset h = - (h * 0.25)).
Proof.
  unfold singleFlowerYOffset, Math.max. split; intros H.
  - rewrite Rmax_left by lra. lra.
  - rewrite Rmax_right by lra. lra.
Qed.

(** The claim C5 fails as stated: at the stem heights 3 and 6 the
    single-flower view and the field view place the plant at different
    heights. *)
Lemma single_view_offset_differs :
  singleFlowerYOffset 3 = -0.75
  /\ vy (PlantedFlowerWithLabel_position (initialProps 3 0.42 (Some (0, 0, 0)))) = 0
  /\ singleFlowerYOffset 6 = -1.5
  /\ vy (PlantedFlowerWithLabel_position (initialProps 6 0.42 (Some (0, 0, 0)))) = -0.3
  /\ ~ (forall h : R,
          singleFlowerYOffset h
          = vy (PlantedFlowerWithLabel_position (initialProps h 0.42 (Some (0, 0, 0))))).
Proof.
  assert (S3 : singleFlowerYOffset 3 = -0.75).
  { destruct (singleFlowerYOffset_cases 3) as [_ H]. rewrite H; lra. }
  assert (S6 : singleFlowerYOffset 6 = -1.5).
  { destruct (singleFlowerYOffset_cases 6) as [_ H]. rewrite H; lra. }
  assert (F3 : vy (PlantedFlowerWithLabel_position
                     (initialProps 3 0.42 (Some (0, 0, 0)))) = 0).
  { destruct (PlantedFlowerWithLabel_position_cases
                (initialProps 3 0.42 (Some (0, 0, 0)))) as [H _].
    rewrite H; [reflexivity | simpl; lra]. }
  assert (F6 : vy (PlantedFlowerWithLabel_position
                     (initialProps 6 0.42 (Some (0, 0, 0)))) = -0.3).
  { destruct (PlantedFlowerWithLabel_position_cases
                (initialProps 6 0.42 (Some (0, 0, 0)))) as [_ H].
    rewrite H; [unfold vy; simpl; lra | simpl; lra]. }
  repeat split; try assumption.
  intros H. specialize (H 3). rewrite S3, F3 in H. lra.
Qed.

(** C5, amended.  The field rule is the same where a plant is stored
    ([plantFlower]) and where it is drawn ([PlantedFlowerWithLabel]);
    drawing a stored plant does not displace it a second time; the
    single-flower view follows its own rule, which puts the plant strictly
    lower than the field rule puts a plant standing on the ground. *)
Theorem field_placement_consistent (flower : PlantedFlower.t) (pos : vec3) (h x z : R) :
  PlantedFlowerWithLabel_position (Field_props flower)
  = plantFlower_position (PlantedFlower.position flower)
                         (PlantedFlower.stemHeight flower)
  /\ plantFlower_position (plantFlower_position pos h) h = plantFlower_position pos h
  /\ singleFlowerYOffset h = - Math.max 0.5 (h * 0.25)
  /\ singleFlowerYOffset h < vy (plantFlower_position (x, 0, z) h).
Proof.
  split; [|split; [|split]].
  - unfold PlantedFlowerWithLabel_position, plantFlower_position, Field_props.
    simpl. reflexivity.
  - destruct (plantFlower_position_cases pos h) as [Hle Hgt].
    destruct (Rle_or_lt h 4) as [H|H].
    + rewrite (Hle H). now apply plantFlower_position_cases.
    + rewrite (Hgt H).
      destruct (plantFlower_position_cases
                  (vx pos, - ((h - 4) * 0.15), vz pos) h) as [_ Hgt'].
      rewrite (Hgt' H). reflexivity.
  - reflexivity.
  - destruct (plantFlower_position_cases (x, 0, z) h) as [Hle Hgt].
    destruct (singleFlowerYOffset_cases h) as [S1 S2].
    destruct (Rle_or_lt h 4) as [H|H].
    + rewrite (Hle H). unfold vy. simpl.
      destruct (Rle_or_lt h 2) as [H2|H2]; [rewrite S1 | rewrite S2]; lra.
    + rewrite (Hgt H). unfold vy. simpl. rewrite S2 by lra. lra.
Qed.

End PlacementFacts.

(** ** The watering effect *)

Section WateringFacts.

Lemma truthyStamp_Some (t : string) : t <> ""%string -> truthyStamp (Some t) = true.
Proof.
  intros H. unfold truthyStamp. destruct (String.eqb_spec t ""); [contradiction | reflexivity].
Qed.

Lemma waterEdge_same (lw : stamp) : waterEdge lw lw = false.
Proof.
  unfold waterEdge. rewrite bool_decide_eq_true_2 by reflexivity.
  apply andb_false_r.
Qed.

Lemma waterEdge_new (t : string) (remembered : stamp) :
  t <> ""%string -> remembered <> Some t -> waterEdge (Some t) remembered = true.
Proof.
  intros Ht Hne. unfold waterEdge. rewrite truthyStamp_Some by exact Ht.
  rewrite bool_decide_eq_false_2 by congruence. reflexivity.
Qed.

(** The effect body, by cases on the edge condition. *)
Lemma effectBody_cases (st : LabelInstance) :
  effectBody st
  = if waterEdge (propsLastWatered st) (lastWateredTime st)
    then {| propsLastWatered := propsLastWatered st;
            hovered := hovered st;
            showWaterAnimation := true;
            lastWateredTime := propsLastWatered st;
            effectDeps := effectDeps st;
            waterFires := S (waterFires st) |}
    else st.
Proof. reflexivity. Qed.

(** Unfolding two rounds. *)
Lemma settle_two (st : LabelInstance) :
  settle renderRounds st
  = if stateChanged st (commitEffects st)
    then commitEffects (commitEffects st)
    else commitEffects st.
Proof.
  unfold renderRounds. simpl.
  destruct (stateChanged st (commitEffects st)); [|reflexivity].
  destruct (stateChanged (commitEffects st) (commitEffects (commitEffects st)));
    reflexivity.
Qed.

Lemma stateChanged_same (st st' : LabelInstance) :
  showWaterAnimation st = showWaterAnimation st' ->
  lastWateredTime st = lastWateredTime st' ->
  stateChanged st st' = false.
Proof.
  intros E1 E2. unfold stateChanged.
  now rewrite !bool_decide_eq_true_2.
Qed.

Lemma stateChanged_time (st st' : LabelInstance) :
  lastWateredTime st <> lastWateredTime st' -> stateChanged st st' = true.
Proof.
  intros E. unfold stateChanged.
  rewrite (bool_decide_eq_false_2 _ E). apply orb_true_r.
Qed.

(** The three ways a render can go. *)
Lemma commit_skip (st : LabelInstance) :
  effectDeps st = Some (propsLastWatered st, lastWateredTime st) ->
  commitEffects st = st.
Proof.
  intros Hd. unfold commitEffects. cbv zeta. now rewrite bool_decide_eq_true_2.
Qed.

Lemma commit_fire (st : LabelInstance) :
  effectDeps st <> Some (propsLastWatered st, lastWateredTime st) ->
  waterEdge (propsLastWatered st) (lastWateredTime st) = true ->
  commitEffects st
  = {| propsLastWatered := propsLastWatered st;
       hovered := hovered st;
       showWaterAnimation := true;
       lastWateredTime := propsLastWatered st;
       effectDeps := Some (propsLastWatered st, lastWateredTime st);
       waterFires := S (waterFires st) |}.
Proof.
  intros Hd He. unfold commitEffects. cbv zeta.
  rewrite bool_decide_eq_false_2 by exact Hd.
  rewrite effectBody_cases. simpl. now rewrite He.
Qed.

Lemma commit_nofire (st : LabelInstance) :
  effectDeps st <> Some (propsLastWatered st, lastWateredTime st) ->
  waterEdge (propsLastWatered st) (lastWateredTime st) = false ->
  commitEffects st
  = {| propsLastWatered := propsLastWatered st;
       hovered := hovered st;
       showWaterAnimation := showWaterAnimation st;
       lastWateredTime := lastWateredTime st;
       effectDeps := Some (propsLastWatered st, lastWateredTime st);
       waterFires := waterFires st |}.
Proof.
  intros Hd He. unfold commitEffects. cbv zeta.
  rewrite bool_decide_eq_false_2 by exact Hd.
  rewrite effectBody_cases. simpl. now rewrite He.
Qed.

Lemma waterEdge_differ (p l : stamp) : waterEdge p l = true -> l <> p.
Proof. intros He ->. rewrite waterEdge_same in He. discriminate. Qed.

(** What two rounds of rendering make of a state, whatever it is: the
    effect fires at most once, and exactly when the edge condition holds
    for a pair of dependencies it has not run for. *)
Lemma settle_cases (st : LabelInstance) :
  let p := propsLastWatered st in
  let l := lastWateredTime st in
  settle renderRounds st
  = if bool_decide (effectDeps st = Some (p, l)) then st
    else if waterEdge p l
         then {| propsLastWatered := p;
                 hovered := hovered st;
                 showWaterAnimation := true;
                 lastWateredTime := p;
                 effectDeps := Some (p, p);
                 waterFires := S (waterFires st) |}
         else {| propsLastWatered := p;
                 hovered := hovered st;
                 showWaterAnimation := showWaterAnimation st;
                 lastWateredTime := l;
                 effectDeps := Some (p, l);
                 waterFires := waterFires st |}.
Proof.
  cbv zeta. rewrite settle_two.
  destruct (bool_decide_reflect
              (effectDeps st = Some (propsLastWatered st, lastWateredTime st)))
    as [Hd|Hd].
  - rewrite (commit_skip st Hd).
    now rewrite stateChanged_same.
  - destruct (waterEdge (propsLastWatered st) (lastWateredTime st)) eqn:He.
    + pose proof (waterEdge_differ _ _ He) as Hne.
      rewrite (commit_fire st Hd He).
      rewrite stateChanged_time by exact Hne.
      rewrite commit_nofire; simpl.
      * reflexivity.
      * congruence.
      * apply waterEdge_same.
    + rewrite (commit_nofire st Hd He).
      now rewrite stateChanged_same.
Qed.

(** Two rounds are enough: the state they reach is not changed by another
    render, and more fuel gives the same state. *)
Lemma settle_stable (st : LabelInstance) :
  commitEffects (settle renderRounds st) = settle renderRounds st.
Proof.
  rewrite settle_cases. cbv zeta.
  destruct (bool_decide_reflect
              (effectDeps st = Some (propsLastWatered st, lastWateredTime st)))
    as [Hd|Hd].
  - now apply commit_skip.
  - destruct (waterEdge (propsLastWatered st) (lastWateredTime st));
      now apply commit_skip.
Qed.

Lemma settle_more_fuel (n : nat) (st : LabelInstance) :
  settle (renderRounds + n) st = settle renderRounds st.
Proof.
  rewrite settle_two. unfold renderRounds. simpl.
  destruct (stateChanged st (commitEffects st)) eqn:E; [|reflexivity].
  assert (H : stateChanged (commitEffects st) (commitEffects (commitEffects st))
              = false); [|now rewrite H].
  destruct (bool_decide_reflect
              (effectDeps st = Some (propsLastWatered st, lastWateredTime st)))
    as [Hd|Hd].
  - rewrite (commit_skip st Hd) in E.
    rewrite stateChanged_same in E by reflexivity. discriminate.
  - destruct (waterEdge (propsLastWatered st) (lastWateredTime st)) eqn:He.
    + pose proof (waterEdge_differ _ _ He) as Hne.
      rewrite (commit_fire st Hd He).
      rewrite commit_nofire; simpl;
        [now apply stateChanged_same | congruence | apply waterEdge_same].
    + rewrite (commit_nofire st Hd He) in E.
      rewrite stateChanged_same in E by reflexivity. discriminate.
Qed.

Lemma mount_state (lw : stamp) :
  quiescent (mount lw)
  /\ waterFires (mount lw) = 0%nat
  /\ lastWateredTime (mount lw) = lw
  /\ showWaterAnimation (mount lw) = false.
Proof.
  unfold mount. rewrite settle_cases. cbv zeta. simpl.
  rewrite waterEdge_same. unfold quiescent. simpl.
  rewrite waterEdge_same. repeat split.
Qed.

(** A new snapshot on a quiescent instance: the effect fires exactly when
    the snapshot carries a timestamp other than the one remembered. *)
Lemma labelStep_snapshot (st : LabelInstance) (lw : stamp) :
  quiescent st ->
  let st' := labelStep st (Snapshot lw) in
  let fire := waterEdge lw (lastWateredTime st) in
  quiescent st'
  /\ waterFires st' = (if fire then S (waterFires st) else waterFires st)
  /\ lastWateredTime st' = (if fire then lw else lastWateredTime st)
  /\ showWaterAnimation st' = (if fire then true else showWaterAnimation st).
Proof.
  intros [Hd He]. cbv zeta. unfold labelStep. rewrite settle_cases. cbv zeta. simpl.
  destruct (bool_decide_reflect
              (effectDeps st = Some (lw, lastWateredTime st))) as [E|E].
  - assert (Hlw : propsLastWatered st = lw) by congruence.
    rewrite Hlw in He. rewrite He. unfold quiescent. simpl.
    repeat split; assumption.
  - destruct (waterEdge lw (lastWateredTime st)) eqn:Hf; unfold quiescent; simpl.
    + rewrite waterEdge_same. repeat split.
    + rewrite Hf. repeat split.
Qed.

(** The other events leave the watering state alone. *)
Lemma labelStep_other (st : LabelInstance) (ev : LabelEvent) :
  quiescent st -> (forall lw, ev <> Snapshot lw) ->
  let st' := labelStep st ev in
  quiescent st'
  /\ waterFires st' = waterFires st
  /\ lastWateredTime st' = lastWateredTime st.
Proof.
  intros [Hd He] Hev. cbv zeta.
  destruct ev as [lw| | |]; [now destruct (Hev lw)| | |];
    unfold labelStep; rewrite settle_cases; cbv zeta; simpl;
    rewrite (bool_decide_eq_true_2 _ Hd); unfold quiescent; simpl;
    repeat split; assumption.
Qed.

(** The step of an event other than a snapshot, in a goal about
    [labelStep st ev]. *)
Ltac other_event st Hq :=
  match goal with
  | |- context [labelStep st ?ev] =>
      let Hq' := fresh "Hq" in
      let Hf := fresh "Hf" in
      let Hl := fresh "Hl" in
      destruct (labelStep_other st ev Hq) as (Hq' & Hf & Hl);
      [discriminate | split; [exact Hq' | now rewrite Hf, Hl]]
  end.

(** The effect fires once per change of the watering time: over any run of
    events the counter grows by the number of changes. *)
Lemma labelRun_edges (evs : list LabelEvent) (st : LabelInstance) :
  quiescent st ->
  quiescent (labelRun st evs)
  /\ waterFires (labelRun st evs)
     = (waterFires st + edges (lastWateredTime st) evs)%nat
  /\ lastWateredTime (labelRun st evs)
     = rememberedAfter (lastWateredTime st) evs.
Proof.
  unfold labelRun. revert st.
  induction evs as [|ev evs IH]; intros st Hq; simpl.
  - split; [exact Hq | split; [lia | reflexivity]].
  - assert (Hstep : quiescent (labelStep st ev)
                    /\ (waterFires (labelStep st ev)
                        + edges (lastWateredTime (labelStep st ev)) evs
                        = waterFires st + edges (lastWateredTime st) (ev :: evs))%nat
                    /\ rememberedAfter (lastWateredTime (labelStep st ev)) evs
                       = rememberedAfter (lastWateredTime st) (ev :: evs)).
    { destruct ev as [lw| | |]; [|other_event st Hq ..].
      destruct (labelStep_snapshot st lw Hq) as (Hq' & Hf & Hl & _).
      split; [exact Hq'|]. rewrite Hf, Hl. simpl.
      destruct (waterEdge lw (lastWateredTime st)); split; (lia || reflexivity). }
    destruct Hstep as (Hq' & Hsum & Hrem).
    destruct (IH _ Hq') as (Hq'' & Hn & Hl). split; [exact Hq''|].
    rewrite Hn, Hl. split; [exact Hsum | exact Hrem].
Qed.

(** While every event keeps the remembered time, there is no change to
    count and the remembered time stays. *)
Lemma edges_keeps (t : string) (evs : list LabelEvent) :
  Forall (keeps (Some t)) evs ->
  edges (Some t) evs = 0%nat /\ rememberedAfter (Some t) evs = Some t.
Proof.
  induction 1 as [|ev evs Hev _ IH]; simpl; [split; reflexivity|].
  destruct ev as [lw| | |]; try exact IH.
  simpl in Hev. subst lw. rewrite waterEdge_same. exact IH.
Qed.

(** C7.  The just-watered effect is edge-triggered.  For a flower mounted
    with no watering time whose snapshots go [T1], [T1], [T2] with
    [T2 <> T1]: the effect fires once at the first [T1], not again at the
    second [T1] nor for as long as the value stays [T1] (whatever else
    happens to the instance meanwhile), and once more at [T2]. *)
Theorem watering_edge_trigger (T1 T2 : string) :
  T1 <> ""%string -> T2 <> ""%string -> T2 <> T1 ->
  let s0 := mount None in
  let s1 := labelStep s0 (Snapshot (Some T1)) in
  let s2 := labelStep s1 (Snapshot (Some T1)) in
  let s3 := labelStep s2 (Snapshot (Some T2)) in
  waterFires s0 = 0%nat
  /\ waterFires s1 = 1%nat /\ showWaterAnimation s1 = true
  /\ waterFires s2 = 1%nat
  /\ waterFires s3 = 2%nat /\ showWaterAnimation s3 = true
  /\ (forall evs : list LabelEvent,
        Forall (keeps (Some T1)) evs ->
        waterFires (labelRun s1 evs) = 1%nat
        /\ waterFires (labelStep (labelRun s1 evs) (Snapshot (Some T2))) = 2%nat).
Proof.
  intros H1 H2 H21. cbv zeta.
  destruct (mount_state None) as (Q0 & F0 & L0 & _).
  destruct (labelStep_snapshot (mount None) (Some T1) Q0) as (Q1 & F1 & L1 & W1).
  rewrite L0, waterEdge_new in F1, L1, W1 by (exact H1 || discriminate).
  destruct (labelStep_snapshot _ (Some T1) Q1) as (Q2 & F2 & L2 & _).
  rewrite L1, waterEdge_same in F2, L2.
  destruct (labelStep_snapshot _ (Some T2) Q2) as (Q3 & F3 & L3 & W3).
  rewrite L2, waterEdge_new in F3, L3, W3 by (exact H2 || congruence).
  split; [exact F0|]. split; [congruence|]. split; [exact W1|].
  split; [congruence|]. split; [congruence|]. split; [exact W3|].
  intros evs Hevs.
  destruct (labelRun_edges evs _ Q1) as (Qe & Hn & Hl).
  destruct (edges_keeps T1 evs Hevs) as [E0 R0].
  rewrite L1, E0 in Hn. rewrite L1, R0 in Hl.
  split; [lia|].
  destruct (labelStep_snapshot _ (Some T2) Qe) as (_ & Fe & _).
  rewrite Hl, waterEdge_new in Fe by (exact H2 || congruence). lia.
Qed.

Lemma watering_edge_trigger_witness :
  waterFires
    (labelStep
       (labelStep
          (labelStep (mount None) (Snapshot (Some "2024-05-01T10:00:00.000Z"%string)))
          (Snapshot (Some "2024-05-01T10:00:00.000Z"%string)))
       (Snapshot (Some "2024-05-02T08:30:00.000Z"%string)))
  = 2%nat.
Proof.
  apply (watering_edge_trigger "2024-05-01T10:00:00.000Z" "2024-05-02T08:30:00.000Z");
    discriminate.
Defined.

End WateringFacts.

(** ** Camera focus *)

Section CameraFacts.
Local Open Scope R_scope.

(** Looking a record up by id finds it when ids are unique. *)
Lemma find_by_id (flowers : list PlantedFlower.t) (f : PlantedFlower.t) :
  List.NoDup (map PlantedFlower.id flowers) -> List.In f flowers ->
  List.find (fun g => String.eqb (PlantedFlower.id g) (PlantedFlower.id f)) flowers
  = Some f.
Proof.
  induction flowers as [|g flowers IH]; intros Hnd Hin; [destruct Hin|].
  simpl in Hnd. inversion Hnd as [|? ? Hnotin Hnd']; subst. simpl.
  destruct (String.eqb_spec (PlantedFlower.id g) (PlantedFlower.id f)) as [E|E].
  - destruct Hin as [->|Hin]; [reflexivity|].
    exfalso. apply Hnotin. rewrite E. now apply List.in_map.
  - destruct Hin as [->|Hin]; [congruence|]. now apply IH.
Qed.

Lemma find_by_id_none (flowers : list PlantedFlower.t) (wid : string) :
  (forall f, List.In f flowers -> PlantedFlower.id f <> wid) ->
  List.find (fun g => String.eqb (PlantedFlower.id g) wid) flowers = None.
Proof.
  induction flowers as [|g flowers IH]; intros H; [reflexivity|]. simpl.
  destruct (String.eqb_spec (PlantedFlower.id g) wid) as [E|E].
  - exfalso. apply (H g); [now left | exact E].
  - apply IH. intros f Hf. apply H. now right.
Qed.

Lemma wateredFlowerPosition_found
    (flowers : list PlantedFlower.t) (f : PlantedFlower.t) :
  PlantedFlower.id f <> ""%string ->
  List.NoDup (map PlantedFlower.id flowers) -> List.In f flowers ->
  wateredFlowerPosition (Some (PlantedFlower.id f)) flowers
  = Some (PlantedFlower.position f).
Proof.
  intros Hid Hnd Hin. unfold wateredFlowerPosition.
  rewrite truthyStamp_Some by exact Hid.
  destruct flowers as [|g flowers]; [destruct Hin|].
  change (negb true || Nat.eqb (length (g :: flowers)) 0) with false. cbv iota.
  now rewrite find_by_id.
Qed.

Lemma wateredFlowerPosition_missing
    (flowers : list PlantedFlower.t) (wid : option string) :
  (forall f, List.In f flowers -> Some (PlantedFlower.id f) <> wid) ->
  wateredFlowerPosition wid flowers = None.
Proof.
  intros H. unfold wateredFlowerPosition. destruct wid as [wid|]; [|reflexivity].
  destruct (negb (truthyStamp (Some wid)) || Nat.eqb (length flowers) 0);
    [reflexivity|].
  rewrite find_by_id_none; [reflexivity|].
  intros f Hf E. apply (H f Hf). now rewrite E.
Qed.

(** C8.  In field mode with a watered-flower id: when a planted flower has
    that id and position [[x, y, z]], the camera looks at, and the controls
    target is set to, [[x, y + 2, z]]; when no planted flower has that id
    (and no just-planted position is in focus), the framing is the default
    field framing with target [[0, 0, 0]]. *)
Theorem camera_watered_focus
    (focused : option vec3) (wid : string) (flowers : list PlantedFlower.t)
    (stemHeight : R) (cam : Camera) (target : vec3) :
  wid <> ""%string ->
  List.NoDup (map PlantedFlower.id flowers) ->
  let rig := {| camera := cam; controlsTarget := Some target |} in
  let rig' := CameraController true focused (Some wid) flowers stemHeight rig in
  (forall f x y z,
      List.In f flowers -> PlantedFlower.id f = wid ->
      PlantedFlower.position f = (x, y, z) ->
      controlsTarget rig' = Some (x, y + 2, z)
      /\ cameraLookAt (camera rig') = (x, y + 2, z)
      /\ cameraPosition (camera rig') = (x + 7, 9, z + 7))
  /\ ((forall f, List.In f flowers -> PlantedFlower.id f <> wid) ->
      focused = None ->
      controlsTarget rig' = Some (0, 0, 0)
      /\ cameraLookAt (camera rig') = (0, 0, 0)
      /\ cameraPosition (camera rig') = (8, 8, 8)).
Proof.
  intros Hwid Hnd rig rig'. split.
  - intros f x y z Hin Hid Hpos. subst rig' wid. unfold CameraController.
    rewrite wateredFlowerPosition_found by assumption.
    rewrite Hpos. simpl. repeat split.
  - intros Hnone ->. subst rig'. unfold CameraController.
    rewrite wateredFlowerPosition_missing.
    + simpl. repeat split.
    + intros f Hf E. apply (Hnone f Hf). congruence.
Qed.

Lemma camera_watered_focus_witness :
  controlsTarget
    (CameraController true None (Some "a"%string)
       [examplePlanted "a" (1, 0, 2)] 3
       {| camera := {| cameraPosition := (0, 5, 4); cameraLookAt := (0, 0, 0) |};
          controlsTarget := Some (0, 0, 0) |})
  = Some (1, 0 + 2, 2)
  /\ controlsTarget
       (CameraController true None (Some "missing"%string)
          [examplePlanted "a" (1, 0, 2)] 3
          {| camera := {| cameraPosition := (0, 5, 4); cameraLookAt := (0, 0, 0) |};
             controlsTarget := Some (0, 0, 0) |})
     = Some (0, 0, 0).
Proof.
  destruct (camera_watered_focus None "a" [examplePlanted "a" (1, 0, 2)] 3
              {| cameraPosition := (0, 5, 4); cameraLookAt := (0, 0, 0) |}
              (0, 0, 0)) as [Hfound _];
    [discriminate | repeat constructor; simpl; tauto |].
  destruct (camera_watered_focus None "missing" [examplePlanted "a" (1, 0, 2)] 3
              {| cameraPosition := (0, 5, 4); cameraLookAt := (0, 0, 0) |}
              (0, 0, 0)) as [_ Hmissing];
    [discriminate | repeat constructor; simpl; tauto |].
  split.
  - apply (Hfound (examplePlanted "a" (1, 0, 2)) 1 0 2);
      [left; reflexivity | reflexivity | reflexivity].
  - apply Hmissing; [|reflexivity].
    intros f [<-|[]]. discriminate.
Defined.

(** The target of the example of the specification, [[1, 2, 2]]. *)
Lemma camera_example_target :
  (1, 0 + 2, 2) = ((1, 2, 2) : vec3).
Proof. f_equal. f_equal. lra. Qed.

(** When the id is missing but a just-planted position is in focus, the
    framing is the one of the planted flower, not the default one. *)
Lemma camera_missing_id_planted_focus
    (p : vec3) (wid : string) (flowers : list PlantedFlower.t)
    (stemHeight : R) (rig : CameraRig) :
  (forall f, List.In f flowers -> PlantedFlower.id f <> wid) ->
  cameraLookAt
    (camera (CameraController true (Some p) (Some wid) flowers stemHeight rig))
  = p.
Proof.
  intros Hnone. unfold CameraController.
  rewrite wateredFlowerPosition_missing.
  - destruct p as [[x y] z]. reflexivity.
  - intros f Hf E. apply (Hnone f Hf). congruence.
Qed.

(** Without mounted controls only the camera is moved. *)
Lemma frameCamera_unmounted (p t : vec3) (cam : Camera) :
  controlsTarget (frameCamera p t {| camera := cam; controlsTarget := None |})
  = None.
Proof. reflexivity. Qed.

End CameraFacts.

(** ** The storage adapter *)

Section StorageFacts.
Import Storage.

Lemma getProp_insert_eq (k : string) (v : jsval) (row : gmap string jsval) :
  getProp (<[k := v]> row) k = v.
Proof. unfold getProp. now rewrite lookup_insert_eq. Qed.

Lemma getProp_insert_ne (k k' : string) (v : jsval) (row : gmap string jsval) :
  k <> k' -> getProp (<[k := v]> row) k' = getProp row k'.
Proof. intros H. unfold getProp. now rewrite lookup_insert_ne. Qed.

Lemma normalizeFlower_position (row : gmap string jsval) :
  getProp (normalizeFlower row) "position"
  = if isTriple (getProp row "position") then getProp row "position" else origin.
Proof.
  unfold normalizeFlower.
  rewrite !getProp_insert_ne by discriminate. apply getProp_insert_eq.
Qed.

Lemma normalizeFlower_plantedAt (row : gmap string jsval) :
  getProp (normalizeFlower row) "plantedAt"
  = orElse (getProp row "plantedAt") epoch.
Proof.
  unfold normalizeFlower.
  rewrite getProp_insert_ne by discriminate. apply getProp_insert_eq.
Qed.

Lemma normalizeFlower_lastWatered (row : gmap string jsval) :
  getProp (normalizeFlower row) "lastWatered" = getProp row "lastWatered".
Proof. unfold normalizeFlower. apply getProp_insert_eq. Qed.

Lemma normalizeFlower_other (row : gmap string jsval) (k : string) :
  k <> "position"%string -> k <> "plantedAt"%string -> k <> "lastWatered"%string ->
  normalizeFlower row !! k = row !! k.
Proof.
  intros H1 H2 H3. unfold normalizeFlower.
  now rewrite !lookup_insert_ne by congruence.
Qed.

(** Both fetches normalise their rows in the same way. *)
Lemma getUserFlowers_returned (resp : Response) :
  returned (getUserFlowers resp) = returned (getPlantedFlowers resp).
Proof.
  unfold getUserFlowers, getPlantedFlowers.
  destruct (error resp); reflexivity.
Qed.

Lemma getPlantedFlowers_success (resp : Response) :
  error resp = None ->
  getPlantedFlowers resp
  = mkOutcome (map normalizeFlower (default [] (data resp))) [].
Proof. intros E. unfold getPlantedFlowers. now rewrite E. Qed.

(** C9.  For every record of a successful fetch: a position that is not a
    3-element array (missing ones included) is replaced by the origin
    [[0, 0, 0]]; a missing plantedAt is replaced by the epoch timestamp;
    a well-formed position or plantedAt and every other property pass
    through unchanged; and the fetch returns one record per stored record,
    so a corrupt record does not keep the others from being returned. *)
Theorem fetched_records_normalised
    (resp : Response) (rows : list (gmap string jsval)) :
  error resp = None -> data resp = Some rows ->
  let out := returned (getPlantedFlowers resp) in
  length out = length rows
  /\ returned (getUserFlowers resp) = out
  /\ (forall (i : nat) (row : gmap string jsval),
        rows !! i = Some row ->
        exists row' : gmap string jsval,
          out !! i = Some row'
          /\ (isTriple (getProp row "position") = false ->
              getProp row' "position" = JArr [JNum 0; JNum 0; JNum 0])
          /\ (isTriple (getProp row "position") = true ->
              getProp row' "position" = getProp row "position")
          /\ (row !! "plantedAt" = None
              \/ row !! "plantedAt" = Some JNull
              \/ row !! "plantedAt" = Some JUndefined ->
              getProp row' "plantedAt" = JStr "1970-01-01T00:00:00.000Z")
          /\ (truthy (getProp row "plantedAt") = true ->
              getProp row' "plantedAt" = getProp row "plantedAt")
          /\ getProp row' "lastWatered" = getProp row "lastWatered"
          /\ (forall k : string,
                k <> "position"%string -> k <> "plantedAt"%string ->
                k <> "lastWatered"%string ->
                row' !! k = row !! k)).
Proof.
  intros He Hd out. subst out.
  rewrite getUserFlowers_returned, (getPlantedFlowers_success resp He), Hd.
  simpl. split; [apply length_map|]. split; [reflexivity|].
  intros i row Hi. exists (normalizeFlower row).
  split; [now rewrite list_lookup_fmap, Hi|].
  rewrite normalizeFlower_position, normalizeFlower_plantedAt,
    normalizeFlower_lastWatered.
  split; [now intros ->|]. split; [now intros ->|].
  split; [|split; [|split; [reflexivity | apply normalizeFlower_other]]].
  - unfold getProp. intros [-> | [-> | ->]]; reflexivity.
  - unfold orElse. now intros ->.
Qed.

Lemma fetched_records_normalised_witness :
  length (returned (getPlantedFlowers exampleResponse)) = 2%nat
  /\ exists row' : gmap string jsval,
       returned (getPlantedFlowers exampleResponse) !! 0%nat = Some row'
       /\ getProp row' "position" = origin
       /\ getProp row' "plantedAt" = epoch.
Proof.
  destruct (fetched_records_normalised exampleResponse [corruptRow; soundRow]
              eq_refl eq_refl) as (Hlen & _ & Hrows).
  split; [exact Hlen|].
  destruct (Hrows 0%nat corruptRow eq_refl) as (row' & H0 & Hpos & _ & Hat & _).
  exists row'. split; [exact H0|].
  split; [apply Hpos; reflexivity | apply Hat; left; reflexivity].
Defined.

(** C10.  When the store reports an error, [getPlantedFlowers] returns the
    empty list, the very value it returns for a garden without flowers, so
    the caller cannot tell the two apart; on a successful fetch it returns
    one entry per stored record. *)
Theorem fetch_failure_is_empty
    (resp : Response) (e : jsval) (rows : list (gmap string jsval)) :
  (error resp = Some e ->
   returned (getPlantedFlowers resp) = []
   /\ returned (getPlantedFlowers resp)
      = returned (getPlantedFlowers {| data := Some []; error := None |})
   /\ returned (getPlantedFlowers resp)
      = returned (getPlantedFlowers {| data := None; error := None |}))
  /\ (error resp = None -> data resp = Some rows ->
      length (returned (getPlantedFlowers resp)) = length rows).
Proof.
  split.
  - intros He. unfold getPlantedFlowers. rewrite He. simpl. repeat split.
  - intros He Hd. rewrite (getPlantedFlowers_success resp He), Hd. simpl.
    apply length_map.
Qed.

Lemma fetch_failure_is_empty_witness :
  returned (getPlantedFlowers failedResponse) = []
  /\ length (returned (getPlantedFlowers exampleResponse)) = 2%nat.
Proof.
  split.
  - apply (fetch_failure_is_empty failedResponse (JStr "connection refused") []).
    reflexivity.
  - apply (fetch_failure_is_empty exampleResponse JNull [corruptRow; soundRow]);
      reflexivity.
Defined.

(** The failure is only visible on the console. *)
Lemma fetch_failure_logged (resp : Response) (e : jsval) :
  error resp = Some e ->
  logged (getPlantedFlowers resp) = [("Error fetching flowers:"%string, e)].
Proof. intros He. unfold getPlantedFlowers. now rewrite He. Qed.

End StorageFacts.

(* ===================================================================== *)
(** * Part III.  Further properties of the code                           *)
(* ===================================================================== *)

(** ** The seeded generator and the petals *)

Section GeneratorEdgeFacts.
Local Open Scope R_scope.

Lemma Math_sin_shift (x y : R) : y = x + 2 * Math.PI -> Math.sin y = Math.sin x.
Proof.
  intros ->. unfold Math.sin, Math.PI.
  replace (x + 2 * PI) with (x + PI + PI) by ring.
  rewrite !neg_sin. ring.
Qed.

Lemma random_shift (seed seed' min max off off' : R) :
  seed' + off' = seed + off + 2 * Math.PI ->
  createRandomGenerator seed' min max off' = createRandomGenerator seed min max off.
Proof.
  intros E. unfold createRandomGenerator. cbv zeta.
  now rewrite (Math_sin_shift (seed + off) (seed' + off') E).
Qed.

(** X1.  When the bounds are given in reverse or coincide ([max <= min]),
    the generator does not fail: its value lies between [max] and [min],
    it is [min] itself when the bounds coincide, and it is strictly above
    [max] when they differ. *)
Theorem generator_reversed_bounds (seed off min max : R) :
  max <= min ->
  max <= createRandomGenerator seed min max off <= min
  /\ (max = min -> createRandomGenerator seed min max off = min)
  /\ (max < min -> max < createRandomGenerator seed min max off).
Proof.
  intros Hle. unfold createRandomGenerator. cbv zeta.
  set (x := Math.sin (seed + off) * 10000).
  destruct (fract_range x) as [H0 H1].
  split; [split; nra|]. split.
  - intros ->. ring.
  - intros Hlt. nra.
Qed.

Lemma generator_reversed_bounds_witness :
  0 <= createRandomGenerator 0.42 1 0 7 <= 1.
Proof.
  apply (generator_reversed_bounds 0.42 7 1 0). lra.
Defined.

Lemma petalLoop_Forall {A : Type} (P : A -> Prop) (body : Z -> A) (n : nat) (i : Z) :
  (forall j : Z, P (body j)) -> Forall P (petalLoop body n i).
Proof.
  intros H. revert i. induction n as [|n IH]; intros i; simpl; constructor.
  - apply H.
  - apply IH.
Qed.

(** X2.  Seeds that differ by [PI] give the same petals: every draw of the
    petal loop reads the seed twice, so the layout has period [PI] in the
    seed. *)
Theorem petal_layout_period_pi (p q : FlowerProps) :
  petalCount q = petalCount p ->
  petalLength q = petalLength p ->
  petalWidth q = petalWidth p ->
  seed q = seed p + Math.PI ->
  petalLayout q = petalLayout p.
Proof.
  intros Hc Hl Hw Hs. unfold petalLayout. rewrite Hc, Hl, Hw.
  apply petalLoop_ext. intros j. unfold petalSpec. cbv zeta.
  rewrite Hs. f_equal.
  - f_equal. f_equal. apply random_shift. ring.
  - f_equal. f_equal. apply random_shift. ring.
  - f_equal. f_equal; apply random_shift; ring.
Qed.

Lemma petal_layout_period_pi_witness :
  petalLayout (initialProps 3 (0.42 + Math.PI) None)
  = petalLayout (initialProps 3 0.42 None).
Proof.
  apply (petal_layout_period_pi (initialProps 3 0.42 None)
           (initialProps 3 (0.42 + Math.PI) None)); reflexivity.
Defined.

Lemma petalSpec_bend_range (n : Z) (l w s : R) (i : Z) :
  0.05 <= Petal.bend (petalSpec n l w s i) < 0.4.
Proof.
  unfold petalSpec. cbv zeta. simpl. unfold Math.max.
  pose proof (random_range s 0.1 0.3 (s + IZR i + 0.2)) as Hb.
  pose proof (random_range s (-0.1) 0.1 (s + IZR i + IZR i * 0.5)) as Hv.
  split.
  - apply Rmax_l.
  - apply Rmax_lub_lt; lra.
Qed.

(** X3.  The bend of every petal lies between 0.05 (included) and 0.4
    (excluded), whatever the four parameters. *)
Theorem petal_bend_range (p : FlowerProps) :
  Forall (fun s : Petal.t => 0.05 <= Petal.bend s < 0.4) (petalLayout p).
Proof.
  unfold petalLayout. apply petalLoop_Forall. intros j.
  apply petalSpec_bend_range.
Qed.

(** X4.  For a positive [petalLength] and [petalWidth], every petal is
    between 0.9 (included) and 1.1 (excluded) times as long and as wide as
    asked. *)
Theorem petal_size_jitter (p : FlowerProps) :
  0 < petalLength p -> 0 < petalWidth p ->
  Forall (fun s : Petal.t =>
            0.9 * petalLength p <= Petal.length s < 1.1 * petalLength p
            /\ 0.9 * petalWidth p <= Petal.width s < 1.1 * petalWidth p)
         (petalLayout p).
Proof.
  intros Hl Hw. unfold petalLayout. apply petalLoop_Forall. intros j.
  unfold petalSpec. cbv zeta. simpl.
  pose proof (random_range (seed p) 0 0.2 (seed p + IZR j)).
  pose proof (random_range (seed p) 0 0.2 (seed p + IZR j + 0.1)).
  split; split; nra.
Qed.

Lemma petal_size_jitter_witness :
  Forall (fun s : Petal.t =>
            0.9 * 1 <= Petal.length s < 1.1 * 1
            /\ 0.9 * 0.5 <= Petal.width s < 1.1 * 0.5)
         (petalLayout (initialProps 3 0.42 None)).
Proof.
  apply (petal_size_jitter (initialProps 3 0.42 None)); simpl; lra.
Defined.

(** X5.  A petal count of zero or below gives a flower without petals:
    the loop does not run. *)
Theorem no_petals_without_count (p : FlowerProps) :
  (petalCount p <= 0)%Z -> petals p = [] /\ petalLayout p = [].
Proof.
  intros H. unfold petals, petalLayout.
  replace (Z.to_nat (petalCount p)) with 0%nat by lia. split; reflexivity.
Qed.

Lemma no_petals_without_count_witness : petals barePropsExample = [].
Proof.
  apply (no_petals_without_count barePropsExample). simpl. lia.
Defined.

Lemma petalLoop_keys {A : Type} (key : A -> Z) (body : Z -> A) (n : nat) (i : Z) :
  (forall j : Z, key (body j) = j) ->
  map key (petalLoop body n i) = map (fun k : nat => (i + Z.of_nat k)%Z) (seq 0 n).
Proof.
  intros H. revert i. induction n as [|n IH]; intros i; [reflexivity|].
  simpl. rewrite H, IH. f_equal; [lia|].
  rewrite <- seq_shift, map_map. apply map_ext. intros k. lia.
Qed.

(** X6.  The petal meshes carry the keys 0, 1, 2, ... in order (no two
    alike); each sits at the origin of the head, has the petal colour, is
    not rotated about its second axis, and is tilted off the flat position
    [PI / 2] by its bend, that is by at least 0.05 and less than 0.4. *)
Theorem petal_meshes_shape (p : FlowerProps) :
  map meshKey (petals p) = map Z.of_nat (seq 0 (Z.to_nat (petalCount p)))
  /\ NoDup (map meshKey (petals p))
  /\ Forall (fun m : PetalMesh =>
               meshPosition m = (0, 0, 0)
               /\ materialColor m = petalColor p
               /\ vy (meshRotation m) = 0
               /\ Math.PI / 2 - 0.4 < vx (meshRotation m) <= Math.PI / 2 - 0.05)
            (petals p).
Proof.
  assert (K : map meshKey (petals p)
              = map Z.of_nat (seq 0 (Z.to_nat (petalCount p)))).
  { unfold petals. rewrite (petalLoop_keys meshKey) by reflexivity.
    apply map_ext. intros k. lia. }
  split; [exact K|]. split.
  - rewrite K. apply NoDup_fmap_2; [|apply NoDup_seq].
    intros a b E. lia.
  - unfold petals. apply petalLoop_Forall. intros j.
    pose proof (petalSpec_bend_range (petalCount p) (petalLength p)
                  (petalWidth p) (seed p) j) as Hb.
    unfold petalMesh, vx, vy.
    cbn [meshRotation meshPosition materialColor fst snd].
    repeat split; lra.
Qed.

End GeneratorEdgeFacts.

(** ** The wind animation over time *)

Section AnimationFacts.
Local Open Scope R_scope.

(** X7.  The four wind parameters of a flower lie in fixed ranges,
    whatever its seed: speed in [0.5, 1.5), strength in [0.05, 0.15),
    turbulence in [0.1, 0.3) and direction in [0, 2 PI). *)
Theorem wind_parameters_in_range (seed : R) :
  0.5 <= speed (windParams seed) < 1.5
  /\ 0.05 <= strength (windParams seed) < 0.15
  /\ 0.1 <= turbulence (windParams seed) < 0.3
  /\ 0 <= direction (windParams seed) < 2 * Math.PI.
Proof. exact (windParams_range seed). Qed.

(** X8.  The frame callback keeps no memory of earlier frames: the pose
    after a frame at time [t2] is the same whether or not a frame at
    another time [t1] ran before it, so the animation cannot drift. *)
Theorem wind_frame_is_memoryless (w : WindParams) (h t1 t2 : R) (refs : FlowerRefs) :
  useFrame w h t2 (useFrame w h t1 refs) = useFrame w h t2 refs.
Proof.
  destruct refs as [[fg|] [sg|] [pg|]]; reflexivity.
Qed.

Lemma directedWind_small (seed t : R) :
  Rabs (directedWindX (windParams seed) t) <= 0.165
  /\ Rabs (directedWindZ (windParams seed) t) <= 0.165.
Proof.
  destruct (windParams_range seed) as (_ & Hs & Ht & _).
  pose proof (directedWindX_bound (windParams seed) t).
  pose proof (directedWindZ_bound (windParams seed) t).
  split; lra.
Qed.

Lemma Rabs_scaled (u b c : R) : Rabs u <= b -> 0 <= c -> Rabs (u * c) <= b * c.
Proof.
  intros Hu Hc. rewrite Rabs_mult, (Rabs_pos_eq c) by exact Hc.
  pose proof (Rabs_pos u). nra.
Qed.

Lemma swaying_initial (h : R) : 0 <= h -> swaying h (Flower_refs h).
Proof.
  intros Hh. unfold Flower_refs. eexists _, _, _. split; [reflexivity|].
  unfold vx, vy, vz. cbn [groupPosition groupRotation fst snd].
  rewrite Rabs_R0. repeat split; lra.
Qed.

(** One frame brings any mounted flower whose head is at height [h] into
    the swaying pose. *)
Lemma useFrame_swaying (seed h t : R) (refs : FlowerRefs) :
  0 <= h -> swaying h refs \/ refs = Flower_refs h ->
  swaying h (useFrame (windParams seed) h t refs).
Proof.
  intros Hh Hrefs.
  assert (Hm : exists fg sg pg,
             refs = {| flowerGroup := Some fg; stemGroup := Some sg;
                       petalGroup := Some pg |}
             /\ vy (groupPosition fg) = h).
  { destruct Hrefs as [(fg & sg & pg & -> & Hy & _)| ->].
    - now exists fg, sg, pg.
    - eexists _, _, _. split; reflexivity. }
  destruct Hm as (fg & sg & pg & -> & Hy).
  destruct (directedWind_small seed t) as [HX HZ].
  unfold useFrame. cbn [flowerGroup stemGroup petalGroup].
  eexists _, _, _. split; [reflexivity|].
  unfold vx, vy, vz in *. cbn [groupPosition groupRotation fst snd].
  split; [exact Hy|].
  assert (H02 : 0 <= 0.2) by lra.
  assert (Hh2 : 0 <= h * 0.2) by nra.
  repeat split.
  - rewrite Rmult_assoc.
    pose proof (Rabs_scaled _ _ _ HX Hh2). lra.
  - rewrite Rmult_assoc.
    pose proof (Rabs_scaled _ _ _ HZ Hh2). lra.
  - pose proof (Rabs_scaled _ _ _ HZ H02). lra.
  - rewrite <- Ropp_mult_distr_l, Rabs_Ropp.
    pose proof (Rabs_scaled _ _ _ HX H02). lra.
  - pose proof (Math_cos_bound (t * 2.5)).
    apply Rabs_le. split; nra.
  - pose proof (Math_sin_bound (t * 3)).
    apply Rabs_le. split; nra.
  - pose proof (Math_sin_bound (t * 4)).
    apply Rabs_le. split; nra.
Qed.

(** X9.  However many frames have run and at whatever times, a flower
    with a non-negative stem height stays in a bounded pose: the three
    groups stay mounted, the head keeps the height of the stem tip and is
    at most [0.033 * stemHeight] off the axis in each direction, the stem
    tilts by at most 0.033 about each axis, and the petal group turns by
    at most 0.02, 0.03 and 0.01. *)
Theorem animated_flower_stays_bounded (p : FlowerProps) (times : list R) :
  0 <= stemHeight p ->
  swaying (stemHeight p) (Flower_animate p times).
Proof.
  intros Hh. unfold Flower_animate.
  assert (G : forall (ts : list R) (refs : FlowerRefs),
             swaying (stemHeight p) refs ->
             swaying (stemHeight p)
               (fold_left (fun refs t => useFrame (windParams (seed p))
                                           (stemHeight p) t refs) ts refs)).
  { induction ts as [|t' ts IH]; intros refs Hs; simpl; [exact Hs|].
    apply IH. apply useFrame_swaying; [exact Hh | now left]. }
  apply G. now apply swaying_initial.
Qed.

Lemma animated_flower_stays_bounded_witness :
  swaying 3 (Flower_animate (initialProps 3 0.42 None) [0; 1.5; 0.25]).
Proof.
  apply (animated_flower_stays_bounded (initialProps 3 0.42 None) [0; 1.5; 0.25]).
  simpl. lra.
Defined.

End AnimationFacts.

(** ** The camera *)

Section CameraFramingFacts.
Local Open Scope R_scope.

(** X10.  In the single-flower view the camera looks at a point of the
    stem: for a stem height of at least 5/7 the height it looks at lies
    between the base and the tip of the stem as the scene places them. *)
Theorem single_view_camera_targets_stem (h : R) (focused : option vec3)
    (wid : option string) (flowers : list PlantedFlower.t) (rig : CameraRig) :
  5 / 7 <= h ->
  let stem := Flower_stem h in
  let base := vy (singleFlower_position h) + vy (stemPosition stem)
              - cylinderHeight stem / 2 in
  let tip := vy (singleFlower_position h) + vy (stemPosition stem)
             + cylinderHeight stem / 2 in
  let target := cameraLookAt (camera (CameraController false focused wid flowers h rig)) in
  vx target = 0 /\ vz target = 0 /\ base <= vy target <= tip.
Proof.
  intros Hh. cbv zeta. unfold CameraController, cameraEffect, frameCamera.
  cbn [camera cameraLookAt]. unfold vx, vy, vz, singleFlower_position, Flower_stem.
  cbn [stemPosition cylinderHeight fst snd].
  destruct (singleFlowerYOffset_cases h) as [S1 S2].
  split; [reflexivity|]. split; [reflexivity|].
  destruct (Rle_or_lt h 2) as [H2|H2]; [rewrite S1 | rewrite S2]; lra.
Qed.

Lemma single_view_camera_targets_stem_witness :
  - 0.75 <= vy (cameraLookAt
                 (camera (CameraController false None None [] 3
                            {| camera := {| cameraPosition := (0, 5, 4);
                                            cameraLookAt := (0, 0, 0) |};
                               controlsTarget := None |})))
  <= 2.25.
Proof.
  destruct (single_view_camera_targets_stem 3 None None []
              {| camera := {| cameraPosition := (0, 5, 4);
                              cameraLookAt := (0, 0, 0) |};
                 controlsTarget := None |}) as (_ & _ & H); [lra|].
  unfold singleFlower_position, Flower_stem, vy in H.
  cbn [stemPosition cylinderHeight fst snd] in H.
  destruct (singleFlowerYOffset_cases 3) as [_ S2].
  rewrite S2 in H by lra. unfold vy. lra.
Defined.

(** X11.  In the single-flower view the framing depends on the stem height
    alone: the focus inputs and the planted flowers are ignored, the camera
    is never lower than 5 nor closer than 4, and a taller stem never brings
    it lower or closer. *)
Theorem single_view_camera_backs_off (h1 h2 : R)
    (focused focused' : option vec3) (wid wid' : option string)
    (flowers flowers' : list PlantedFlower.t) (rig : CameraRig) :
  h1 <= h2 ->
  let cam1 := camera (CameraController false focused wid flowers h1 rig) in
  let cam2 := camera (CameraController false focused' wid' flowers' h2 rig) in
  CameraController false focused wid flowers h1 rig
  = CameraController false focused' wid' flowers' h1 rig
  /\ vx (cameraPosition cam1) = 0
  /\ 5 <= vy (cameraPosition cam1) <= vy (cameraPosition cam2)
  /\ 4 <= vz (cameraPosition cam1) <= vz (cameraPosition cam2).
Proof.
  intros Hh. cbv zeta. unfold CameraController, cameraEffect, frameCamera.
  cbn [camera cameraPosition]. unfold vx, vy, vz. cbn [fst snd].
  unfold Math.max.
  split; [reflexivity|]. split; [reflexivity|].
  split; split.
  - apply Rmax_l.
  - apply Rle_max_compat_l. lra.
  - apply Rmax_l.
  - apply Rle_max_compat_l. lra.
Qed.

Lemma single_view_camera_backs_off_witness :
  5 <= vy (cameraPosition
             (camera (CameraController false None None [] 3
                        {| camera := {| cameraPosition := (0, 5, 4);
                                        cameraLookAt := (0, 0, 0) |};
                           controlsTarget := None |}))).
Proof.
  destruct (single_view_camera_backs_off 3 5 None None None None [] []
              {| camera := {| cameraPosition := (0, 5, 4);
                              cameraLookAt := (0, 0, 0) |};
                 controlsTarget := None |}) as (_ & _ & [H _] & _); [lra|].
  exact H.
Defined.

(** X12.  The camera is always put within the zoom limits handed to the
    orbit controls: for a non-negative stem height and focus positions
    whose height is between -10 and 10, the distance from the camera to
    the point it looks at is at least [minDistance] and at most
    [maxDistance]. *)
Theorem camera_within_zoom_limits (isPlanted : bool)
    (focused watered : option vec3) (h : R) (rig : CameraRig) :
  0 <= h ->
  (forall p, watered = Some p -> -10 <= vy p <= 10) ->
  (forall p, focused = Some p -> -10 <= vy p <= 10) ->
  let cam := camera (cameraEffect isPlanted focused watered h rig) in
  let limits := CameraController_controls isPlanted h in
  minDistance limits * minDistance limits
  <= dist2 (cameraPosition cam) (cameraLookAt cam)
  <= maxDistance limits * maxDistance limits.
Proof.
  intros Hh Hw Hf. cbv zeta. unfold cameraEffect, CameraController_controls.
  cbn [minDistance maxDistance].
  destruct isPlanted.
  - destruct watered as [[[x y] z]|].
    + specialize (Hw _ eq_refl). unfold vy in Hw. cbn [fst snd] in Hw.
      unfold frameCamera, dist2, vx, vy, vz. cbn [camera cameraPosition cameraLookAt fst snd].
      split; nra.
    + destruct focused as [[[x y] z]|].
      * specialize (Hf _ eq_refl). unfold vy in Hf. cbn [fst snd] in Hf.
        unfold frameCamera, dist2, vx, vy, vz.
        cbn [camera cameraPosition cameraLookAt fst snd].
        split; nra.
      * unfold frameCamera, dist2, vx, vy, vz.
        cbn [camera cameraPosition cameraLookAt fst snd].
        split; nra.
  - cbv zeta. unfold frameCamera, dist2, vx, vy, vz.
    cbn [camera cameraPosition cameraLookAt fst snd].
    unfold Math.max, Rmax.
    destruct (Rle_dec 5 ((h + 1) * 1.2)), (Rle_dec 4 ((h + 1) * 1.0)),
      (Rle_dec 15 (h * 3)); split; nra.
Qed.

Lemma camera_within_zoom_limits_witness :
  2 * 2
  <= dist2 (8, 8, 8) (0, 0, 0)
  <= 30 * 30.
Proof.
  apply (camera_within_zoom_limits true None None 3
           {| camera := {| cameraPosition := (0, 5, 4); cameraLookAt := (0, 0, 0) |};
              controlsTarget := None |});
    [lra | discriminate | discriminate].
Defined.

(** X13.  A watered flower that is found takes precedence: the framing is
    the same whether or not a just-planted position is in focus as well. *)
Theorem watered_focus_overrides_planted_focus
    (focused : option vec3) (flowers : list PlantedFlower.t)
    (f : PlantedFlower.t) (stemHeight : R) (rig : CameraRig) :
  PlantedFlower.id f <> ""%string ->
  List.NoDup (map PlantedFlower.id flowers) -> List.In f flowers ->
  CameraController true focused (Some (PlantedFlower.id f)) flowers stemHeight rig
  = CameraController true None (Some (PlantedFlower.id f)) flowers stemHeight rig.
Proof.
  intros Hid Hnd Hin. unfold CameraController.
  rewrite wateredFlowerPosition_found by assumption.
  destruct (PlantedFlower.position f) as [[x y] z]. reflexivity.
Qed.

Lemma watered_focus_overrides_planted_focus_witness :
  CameraController true (Some (5, 0, 5)) (Some "a"%string)
    [examplePlanted "a" (1, 0, 2)] 3
    {| camera := {| cameraPosition := (0, 5, 4); cameraLookAt := (0, 0, 0) |};
       controlsTarget := None |}
  = CameraController true None (Some "a"%string)
      [examplePlanted "a" (1, 0, 2)] 3
      {| camera := {| cameraPosition := (0, 5, 4); cameraLookAt := (0, 0, 0) |};
         controlsTarget := None |}.
Proof.
  apply (watered_focus_overrides_planted_focus (Some (5, 0, 5))
           [examplePlanted "a" (1, 0, 2)] (examplePlanted "a" (1, 0, 2)));
    [discriminate | repeat constructor; simpl; tauto | left; reflexivity].
Defined.

(** X14.  An empty watered id, and any watered id while no flower is
    planted, count as no watered flower at all. *)
Theorem empty_watered_id_is_no_focus (isPlanted : bool) (focused : option vec3)
    (wid : option string) (flowers : list PlantedFlower.t)
    (stemHeight : R) (rig : CameraRig) :
  CameraController isPlanted focused (Some ""%string) flowers stemHeight rig
  = CameraController isPlanted focused None flowers stemHeight rig
  /\ CameraController isPlanted focused wid [] stemHeight rig
     = CameraController isPlanted focused None [] stemHeight rig.
Proof.
  unfold CameraController. split; [reflexivity|].
  destruct wid as [w|]; [|reflexivity].
  unfold wateredFlowerPosition.
  destruct (negb (truthyStamp (Some w))); reflexivity.
Qed.

End CameraFramingFacts.

(** ** The watering effect over arbitrary runs *)

Section WateringRunFacts.

(** X15.  From the moment a flower is mounted, the number of times the
    effect has started the droplet animation is the number of snapshots
    that carried a non-empty watering time different from the last one
    remembered; mounting itself never starts it, even with a watering time
    already present. *)
Theorem watering_fires_once_per_new_time (lw : stamp) (evs : list LabelEvent) :
  waterFires (mount lw) = 0%nat
  /\ showWaterAnimation (mount lw) = false
  /\ waterFires (labelRun (mount lw) evs) = edges lw evs
  /\ lastWateredTime (labelRun (mount lw) evs) = rememberedAfter lw evs.
Proof.
  destruct (mount_state lw) as (Q & F & L & W).
  destruct (labelRun_edges evs _ Q) as (_ & Hn & Hl).
  rewrite F, L in Hn. rewrite L in Hl. repeat split; assumption.
Qed.

Lemma edges_keepsOrClears (t : stamp) (evs : list LabelEvent) :
  Forall (keepsOrClears t) evs -> edges t evs = 0%nat.
Proof.
  induction 1 as [|ev evs Hev _ IH]; simpl; [reflexivity|].
  destruct ev as [lw| | |]; try exact IH.
  destruct Hev as [-> | ->].
  - unfold waterEdge. simpl. exact IH.
  - rewrite waterEdge_same. exact IH.
Qed.

(** X16.  Clearing the watering time does not re-arm the effect: while the
    snapshots only repeat the time the flower was mounted with or carry
    none, the animation is never started, in particular not when the same
    time comes back after having been cleared. *)
Theorem cleared_time_does_not_rearm (t : stamp) (evs : list LabelEvent) :
  Forall (keepsOrClears t) evs ->
  waterFires (labelRun (mount t) evs) = 0%nat.
Proof.
  intros H. destruct (mount_state t) as (Q & F & L & _).
  destruct (labelRun_edges evs _ Q) as (_ & Hn & _).
  rewrite Hn, F, L, edges_keepsOrClears by exact H. reflexivity.
Qed.

Lemma cleared_time_does_not_rearm_witness :
  waterFires
    (labelRun (mount (Some "2024-05-01T10:00:00.000Z"%string))
       [Snapshot None; PointerOver;
        Snapshot (Some "2024-05-01T10:00:00.000Z"%string)])
  = 0%nat.
Proof.
  apply (cleared_time_does_not_rearm (Some "2024-05-01T10:00:00.000Z"%string)).
  repeat constructor; simpl; tauto.
Defined.

(** X17.  Rendering never loops: after at most two rounds of render and
    effect the component is in a state that a further render leaves alone,
    so any larger number of rounds gives the same state. *)
Theorem render_settles_in_two_rounds (n : nat) (st : LabelInstance) :
  settle (renderRounds + n) st = settle renderRounds st
  /\ commitEffects (settle renderRounds st) = settle renderRounds st
  /\ stateChanged (settle renderRounds st)
                  (commitEffects (settle renderRounds st)) = false.
Proof.
  split; [apply settle_more_fuel|]. split; [apply settle_stable|].
  rewrite settle_stable. now apply stateChanged_same.
Qed.

Lemma labelStep_flag (st : LabelInstance) (ev : LabelEvent) :
  quiescent st -> (forall lw, ev <> Snapshot lw) ->
  showWaterAnimation (labelStep st ev)
  = match ev with
    | AnimationComplete => false
    | _ => showWaterAnimation st
    end
  /\ hovered (labelStep st ev)
     = match ev with
       | PointerOver => true
       | PointerOut => false
       | _ => hovered st
       end.
Proof.
  intros [Hd He] Hev.
  destruct ev as [lw| | |]; [now destruct (Hev lw)| | |];
    unfold labelStep; rewrite settle_cases; cbv zeta; simpl;
    rewrite (bool_decide_eq_true_2 _ Hd); split; reflexivity.
Qed.

Lemma labelRun_flag (evs : list LabelEvent) (st : LabelInstance) :
  quiescent st ->
  showWaterAnimation (labelRun st evs)
  = flagAfter (showWaterAnimation st) (lastWateredTime st) evs.
Proof.
  unfold labelRun. revert st.
  induction evs as [|ev evs IH]; intros st Hq; simpl; [reflexivity|].
  destruct ev as [lw| | |].
  - destruct (labelStep_snapshot st lw Hq) as (Hq' & _ & Hl & Hw).
    rewrite (IH _ Hq'), Hl, Hw.
    destruct (waterEdge lw (lastWateredTime st)); reflexivity.
  - destruct (labelStep_other st AnimationComplete Hq) as (Hq' & _ & Hl);
      [discriminate|].
    destruct (labelStep_flag st AnimationComplete Hq) as [Hw _]; [discriminate|].
    now rewrite (IH _ Hq'), Hl, Hw.
  - destruct (labelStep_other st PointerOver Hq) as (Hq' & _ & Hl);
      [discriminate|].
    destruct (labelStep_flag st PointerOver Hq) as [Hw _]; [discriminate|].
    now rewrite (IH _ Hq'), Hl, Hw.
  - destruct (labelStep_other st PointerOut Hq) as (Hq' & _ & Hl);
      [discriminate|].
    destruct (labelStep_flag st PointerOut Hq) as [Hw _]; [discriminate|].
    now rewrite (IH _ Hq'), Hl, Hw.
Qed.

(** X18.  The droplet animation runs exactly from a new watering time to
    the end of the animation: over any run of events since the flower was
    mounted, the flag is raised by a snapshot with a new non-empty time,
    lowered when the animation completes, and touched by nothing else
    (neither repeated or cleared times nor the pointer). *)
Theorem animation_flag_follows_events (lw : stamp) (evs : list LabelEvent) :
  showWaterAnimation (labelRun (mount lw) evs) = flagAfter false lw evs.
Proof.
  destruct (mount_state lw) as (Q & _ & L & W).
  rewrite (labelRun_flag evs _ Q), L, W. reflexivity.
Qed.

End WateringRunFacts.

(** ** Code that draws from [Math.random] *)

Section RandomDrawFacts.
Local Open Scope R_scope.

Lemma ensures_ret {A : Type} (a : A) (P : A -> Prop) : P a -> ensures (ret a) P.
Proof. intros H g Hg. split; assumption. Qed.

Lemma ensures_bind {A B : Type} (c : Rand A) (k : A -> Rand B)
    (P : A -> Prop) (Q : B -> Prop) :
  ensures c P -> (forall a, P a -> ensures (k a) Q) -> ensures (bind c k) Q.
Proof.
  intros Hc Hk g Hg. unfold bind. destruct (c g) as [a g'] eqn:E.
  destruct (Hc g Hg) as [Ha Hg']. rewrite E in Ha, Hg'. simpl in Ha, Hg'.
  exact (Hk a Ha g' Hg').
Qed.

Lemma ensures_random : ensures Math_random (fun r => 0 <= r < 1).
Proof. intros g Hg. split; [apply Hg | exact Hg]. Qed.

Lemma ensures_weaken {A : Type} (c : Rand A) (P Q : A -> Prop) :
  ensures c P -> (forall a, P a -> Q a) -> ensures c Q.
Proof. intros Hc H g Hg. destruct (Hc g Hg). split; auto. Qed.

Lemma ensures_pushLoop {A : Type} (body : nat -> Rand A) (P : A -> Prop)
    (n i : nat) :
  (forall j, ensures (body j) P) -> ensures (pushLoop body n i) (Forall P).
Proof.
  intros Hb. revert i. induction n as [|n IH]; intros i; simpl.
  - apply ensures_ret. constructor.
  - apply (ensures_bind _ _ P); [apply Hb|]. intros a Ha.
    apply (ensures_bind _ _ (Forall P)); [apply IH|]. intros rest Hrest.
    apply ensures_ret. now constructor.
Qed.

(** The steps of a proof that a drawing computation keeps its results in
    range: one bind, one draw at a time. *)
Ltac draw r Hr :=
  apply (ensures_bind _ _ (fun r => 0 <= r < 1)); [apply ensures_random|];
  intros r Hr.

Lemma pushLoop_keys {A K : Type} (key : A -> K) (mk : nat -> K)
    (body : nat -> Rand A) (n i : nat) (g : Rng) :
  (forall j g', key (fst (body j g')) = mk j) ->
  map key (fst (pushLoop body n i g)) = map mk (seq i n).
Proof.
  intros H. revert i g. induction n as [|n IH]; intros i g; [reflexivity|].
  cbn [pushLoop seq map]. unfold bind at 1.
  pose proof (H i g) as Hi. destruct (body i g) as [a g1]. cbn [fst] in Hi.
  unfold bind at 1. pose proof (IH (S i) g1) as Hr.
  destruct (pushLoop body n (S i) g1) as [rest g2]. cbn [fst] in Hr.
  unfold ret. cbn [fst map]. now rewrite Hi, Hr.
Qed.

Lemma pushLoop_cursor {A : Type} (body : nat -> Rand A) (k n i : nat) (g : Rng) :
  (forall j g', cursor (snd (body j g')) = (k + cursor g')%nat) ->
  cursor (snd (pushLoop body n i g)) = (n * k + cursor g)%nat.
Proof.
  intros H. revert i g. induction n as [|n IH]; intros i g.
  - simpl. lia.
  - cbn [pushLoop]. unfold bind at 1.
    pose proof (H i g) as Hi. destruct (body i g) as [a g1]. cbn [snd] in Hi.
    unfold bind at 1. pose proof (IH (S i) g1) as Hr.
    destruct (pushLoop body n (S i) g1) as [rest g2]. cbn [snd] in Hr.
    unfold ret. cbn [snd]. rewrite Hr, Hi. lia.
Qed.

(** X19.  The vegetation of the field is a thousand grass blades followed
    by thirty dandelions, keyed [grass-0 .. grass-999] and
    [dandelion-0 .. dandelion-29] with no key twice, and building it draws
    exactly 4090 random numbers, whatever they are. *)
Theorem vegetation_elements_and_keys (size : R) (g : Rng) :
  map elementKey (fst (vegetation size g))
  = map GrassKey (seq 0 1000) ++ map DandelionKey (seq 0 30)
  /\ length (fst (vegetation size g)) = 1030%nat
  /\ NoDup (map elementKey (fst (vegetation size g)))
  /\ cursor (snd (vegetation size g)) = (cursor g + 4090)%nat.
Proof.
  assert (K : map elementKey (fst (vegetation size g))
              = map GrassKey (seq 0 1000) ++ map DandelionKey (seq 0 30)
              /\ cursor (snd (vegetation size g)) = (cursor g + 4090)%nat).
  { assert (E : exists grass g1 dandelions g2,
               pushLoop (grassElement size) 1000 0 g = (grass, g1)
               /\ pushLoop (dandelionElement size) 30 0 g1 = (dandelions, g2)
               /\ vegetation size g = (grass ++ dandelions, g2)).
    { unfold vegetation, bind.
      destruct (pushLoop (grassElement size) 1000 0 g) as [grass g1].
      destruct (pushLoop (dandelionElement size) 30 0 g1) as [dandelions g2] eqn:E2.
      exists grass, g1, dandelions, g2. repeat split. exact E2. }
    destruct E as (grass & g1 & dandelions & g2 & E1 & E2 & E3).
    pose proof (pushLoop_keys elementKey GrassKey (grassElement size) 1000 0 g
                  (fun j g' => eq_refl)) as K1.
    pose proof (pushLoop_cursor (grassElement size) 4 1000 0 g
                  (fun j g' => eq_refl)) as C1.
    pose proof (pushLoop_keys elementKey DandelionKey (dandelionElement size) 30 0 g1
                  (fun j g' => eq_refl)) as K2.
    pose proof (pushLoop_cursor (dandelionElement size) 3 30 0 g1
                  (fun j g' => eq_refl)) as C2.
    rewrite E1 in K1, C1. rewrite E2 in K2, C2. rewrite E3.
    cbn [fst snd] in *.
    split; [now rewrite map_app, K1, K2 | lia]. }
  destruct K as [K C]. split; [exact K|]. split; [|split; [|exact C]].
  - rewrite <- (length_map elementKey), K, length_app, !length_map, !length_seq.
    reflexivity.
  - rewrite K. apply NoDup_app. split; [|split].
    + apply NoDup_fmap_2; [intros a b E; congruence | apply NoDup_seq].
    + intros k Hk Hk'. apply list_elem_of_fmap in Hk as (a & -> & _).
      apply list_elem_of_fmap in Hk' as (b & E & _). discriminate.
    + apply NoDup_fmap_2; [intros a b E; congruence | apply NoDup_seq].
Qed.

Lemma scaled_over_ground (size r : R) :
  0 < size -> 0 <= r < 1 -> - size / 2 <= r * size - size / 2 < size / 2.
Proof. intros Hs Hr. split; nra. Qed.

Lemma ensures_grassElement (size : R) (i : nat) :
  0 < size -> ensures (grassElement size i) (vegetationFits size).
Proof.
  intros Hs. unfold grassElement.
  draw r1 H1. draw r2 H2. draw r3 H3. draw r4 H4.
  apply ensures_ret. unfold vegetationFits, overGround, vx, vy, vz.
  cbn [fst snd hue saturation lightness].
  pose proof (scaled_over_ground size r1 Hs H1).
  pose proof (scaled_over_ground size r2 Hs H2).
  repeat split; lra.
Qed.

Lemma ensures_dandelionElement (size : R) (i : nat) :
  0 < size -> ensures (dandelionElement size i) (vegetationFits size).
Proof.
  intros Hs. unfold dandelionElement.
  draw r1 H1. draw r2 H2. draw r3 H3.
  apply ensures_ret. unfold vegetationFits, overGround, vx, vy, vz.
  cbn [fst snd].
  pose proof (scaled_over_ground size r1 Hs H1).
  pose proof (scaled_over_ground size r2 Hs H2).
  repeat split; lra.
Qed.

(** X20.  On a ground of positive size every grass blade and every
    dandelion stands over the ground; the blades are 0.2 to 0.4 high, at
    height 0.15, in a purple of lightness 15 to 35, and the dandelions have
    stems of 0.3 to 0.5 and stand on the ground. *)
Theorem vegetation_stays_on_the_ground (size : R) (g : Rng) :
  unitDraws g -> 0 < size ->
  Forall (vegetationFits size) (fst (vegetation size g)).
Proof.
  intros Hg Hs.
  assert (E : ensures (vegetation size) (Forall (vegetationFits size))).
  { unfold vegetation.
    apply (ensures_bind _ _ (Forall (vegetationFits size))).
    - apply ensures_pushLoop. intros j. now apply ensures_grassElement.
    - intros grass Hgrass.
      apply (ensures_bind _ _ (Forall (vegetationFits size))).
      + apply ensures_pushLoop. intros j. now apply ensures_dandelionElement.
      + intros dandelions Hd. apply ensures_ret.
        apply Forall_app. split; assumption. }
  exact (proj1 (E g Hg)).
Qed.

Lemma vegetation_stays_on_the_ground_witness :
  Forall (vegetationFits 30)
         (fst (vegetation 30 {| draws := fun _ => 0.5; cursor := 0 |})).
Proof.
  apply (vegetation_stays_on_the_ground 30 {| draws := fun _ => 0.5; cursor := 0 |}).
  - intros n. simpl. lra.
  - lra.
Defined.

Lemma ensures_backgroundFlower (size : R) (i : nat) :
  0 < size ->
  ensures (backgroundFlower size i)
    (fun slot => backgroundFits size slot /\ (size < 6 -> slot = None)).
Proof.
  intros Hs. unfold backgroundFlower.
  draw r1 H1. draw r2 H2. cbv zeta.
  pose proof (scaled_over_ground size r1 Hs H1) as Hx.
  pose proof (scaled_over_ground size r2 Hs H2) as Hz.
  unfold Math_abs.
  destruct (bool_decide_reflect (Rabs (r1 * size - size / 2) < 3)) as [Ax|Ax];
    [destruct (bool_decide_reflect (Rabs (r2 * size - size / 2) < 3)) as [Az|Az]|];
    cbn [andb].
  - apply ensures_ret. split; [exact I | reflexivity].
  - draw r3 H3. draw r4 H4. apply ensures_ret. split.
    + unfold backgroundFits, overGround, vx, vy, vz.
      cbn [backgroundPosition backgroundScale backgroundColor hue fst snd].
      split; [split; lra|]. split; [reflexivity|].
      split; [right; now apply Rnot_lt_le|].
      split; [|lra].
      exists (0.3 + r3 * 0.4). split; [reflexivity | lra].
    + intros H6. exfalso. apply Az. apply Rabs_def1; lra.
  - draw r3 H3. draw r4 H4. apply ensures_ret. split.
    + unfold backgroundFits, overGround, vx, vy, vz.
      cbn [backgroundPosition backgroundScale backgroundColor hue fst snd].
      split; [split; lra|]. split; [reflexivity|].
      split; [left; now apply Rnot_lt_le|].
      split; [|lra].
      exists (0.3 + r3 * 0.4). split; [reflexivity | lra].
    + intros H6. exfalso. apply Ax. apply Rabs_def1; lra.
Qed.

Lemma pushLoop_length {A : Type} (body : nat -> Rand A) (n i : nat) (g : Rng) :
  length (fst (pushLoop body n i g)) = n.
Proof.
  rewrite <- (length_map (fun _ => tt)).
  rewrite (pushLoop_keys (fun _ => tt) (fun _ => tt) body n i g (fun _ _ => eq_refl)).
  now rewrite length_map, length_seq.
Qed.

(** X21.  The background flowers fill fifteen slots; on a ground of
    positive size a slot is either empty or holds a sphere on the ground,
    over it, outside the central square of side 6, scaled alike in the
    three directions by 0.3 to 0.7, with a hue from 0 to 360; on a ground
    narrower than 6 every slot stays empty. *)
Theorem background_flowers_avoid_the_centre (size : R) (g : Rng) :
  unitDraws g -> 0 < size ->
  length (fst (backgroundFlowers size g)) = 15%nat
  /\ Forall (backgroundFits size) (fst (backgroundFlowers size g))
  /\ (size < 6 -> Forall (fun slot => slot = None) (fst (backgroundFlowers size g))).
Proof.
  intros Hg Hs. unfold backgroundFlowers.
  split; [apply pushLoop_length|].
  pose proof (ensures_pushLoop (backgroundFlower size) _ 15 0
                (fun j => ensures_backgroundFlower size j Hs) g Hg) as [H _].
  split.
  - eapply Forall_impl; [exact H|]. intros slot [Hfit _]. exact Hfit.
  - intros H6. eapply Forall_impl; [exact H|]. intros slot [_ Hn]. now apply Hn.
Qed.

Lemma background_flowers_avoid_the_centre_witness :
  length (fst (backgroundFlowers 30 {| draws := fun _ => 0.5; cursor := 0 |}))
  = 15%nat.
Proof.
  apply (background_flowers_avoid_the_centre 30
           {| draws := fun _ => 0.5; cursor := 0 |}).
  - intros n. simpl. lra.
  - lra.
Defined.

(** X22.  A grass blade is drawn where and as high as asked, turned about
    the vertical by an angle from 0 to 2 PI and tilted by at most 0.1; a
    dandelion is tilted by at most 0.15 about two axes, its head sits at
    the top of its stem, and its seed offset has no effect on it. *)
Theorem grass_and_dandelion_tilt (position : vec3) (height : R) (color : Hsl)
    (seedOffset seedOffset' : nat) (g : Rng) :
  unitDraws g ->
  let blade := fst (GrassBlade position height color g) in
  let dandelion := fst (Dandelion position height seedOffset g) in
  grassPosition blade = position /\ grassPlane blade = (0.05, height)
  /\ grassColor blade = color
  /\ -0.1 <= vx (grassRotation blade) < 0.1
  /\ 0 <= vy (grassRotation blade) < 2 * Math.PI
  /\ vz (grassRotation blade) = 0
  /\ -0.15 <= vx (dandelionRotation dandelion) < 0.15
  /\ vy (dandelionRotation dandelion) = 0
  /\ -0.15 <= vz (dandelionRotation dandelion) < 0.15
  /\ vy (dandelionHeadPosition dandelion)
     = vy (dandelionStemPosition dandelion) + dandelionStemHeight dandelion / 2
  /\ Dandelion position height seedOffset' g = Dandelion position height seedOffset g.
Proof.
  intros Hg. cbv zeta. unfold GrassBlade, Dandelion, bind, Math_random, ret.
  cbn [fst snd draws cursor grassPosition grassPlane grassColor grassRotation
       dandelionRotation dandelionHeadPosition dandelionStemPosition
       dandelionStemHeight].
  unfold vx, vy, vz. cbn [fst snd].
  pose proof (Hg (cursor g)) as H1. pose proof (Hg (S (cursor g))) as H2.
  pose proof Math_PI_pos as Hpi.
  repeat split; try lra; nra.
Qed.

Lemma grass_and_dandelion_tilt_witness :
  vz (grassRotation
        (fst (GrassBlade (1, 0.15, 2) 0.3 {| hue := 270; saturation := 60; lightness := 25 |}
                {| draws := fun _ => 0.5; cursor := 0 |})))
  = 0.
Proof.
  apply (grass_and_dandelion_tilt (1, 0.15, 2) 0.3
           {| hue := 270; saturation := 60; lightness := 25 |} 0%nat 1%nat
           {| draws := fun _ => 0.5; cursor := 0 |}).
  intros n. simpl. lra.
Defined.

End RandomDrawFacts.

(** ** The editor page *)

Section EditorFacts.
Local Open Scope R_scope.

Ltac draw r Hr :=
  apply (ensures_bind _ _ (fun r => 0 <= r < 1)); [apply ensures_random|];
  intros r Hr.

Lemma Int_part_scaled (r : R) (n : Z) :
  (0 < n)%Z -> 0 <= r < 1 -> (0 <= Int_part (r * IZR n) < n)%Z.
Proof.
  intros Hn Hr. apply IZR_lt in Hn.
  destruct (base_Int_part (r * IZR n)) as [Hle Hgt].
  split.
  - apply Z.lt_succ_r. apply lt_IZR. rewrite succ_IZR.
    assert (0 <= r * IZR n) by nra. lra.
  - apply lt_IZR. assert (r * IZR n < IZR n) by nra. lra.
Qed.

Lemma string_length_append (s t : string) :
  String.length (s ++ t) = (String.length s + String.length t)%nat.
Proof. induction s as [|c s IH]; simpl; [reflexivity | now rewrite IH]. Qed.

Lemma list_ascii_append (s t : string) :
  list_ascii_of_string (s ++ t) = list_ascii_of_string s ++ list_ascii_of_string t.
Proof. induction s as [|c s IH]; simpl; [reflexivity | now rewrite IH]. Qed.

Lemma string_append_assoc (s t u : string) : ((s ++ t) ++ u = s ++ (t ++ u))%string.
Proof.
  induction s as [|c s IH]; [reflexivity|].
  change (String c ((s ++ t) ++ u) = String c (s ++ (t ++ u)))%string.
  now rewrite IH.
Qed.

(** Every index below sixteen reads a digit of [letters]. *)
Lemma letters_get (k : nat) :
  (k < 16)%nat ->
  exists c : Ascii.ascii, String.get k letters = Some c /\ isHexDigit c.
Proof.
  intros Hk.
  do 16 (destruct k as [|k];
         [eexists; split;
          [reflexivity
          |unfold isHexDigit, letters; cbn [list_ascii_of_string In];
           repeat (first [left; reflexivity | right])]
         |]).
  lia.
Qed.

(** A draw appends one of the sixteen digits. *)
Lemma appendLetter_digit (color : string) (r : R) :
  0 <= r < 1 ->
  exists c : Ascii.ascii,
    isHexDigit c /\ appendLetter color r = (color ++ String c "")%string.
Proof.
  intros Hr. unfold appendLetter.
  pose proof (Int_part_scaled r 16 ltac:(lia) Hr) as Hk.
  destruct (letters_get (Z.to_nat (Int_part (r * 16)))) as (c & E & Hc); [lia|].
  rewrite E. now exists c.
Qed.

Lemma ensures_randomColorLoop (n : nat) (prefix digits : string) :
  Forall isHexDigit (list_ascii_of_string digits) ->
  ensures (randomColorLoop n (prefix ++ digits))
    (fun color => exists digits' : string,
         color = (prefix ++ digits')%string
         /\ String.length digits' = (String.length digits + n)%nat
         /\ Forall isHexDigit (list_ascii_of_string digits')).
Proof.
  revert digits. induction n as [|n IH]; intros digits Hd; cbn [randomColorLoop].
  - apply ensures_ret. exists digits. repeat split; [lia | exact Hd].
  - apply (ensures_bind _ _ (fun r => 0 <= r < 1)); [apply ensures_random|].
    intros r Hr. cbv beta.
    destruct (appendLetter_digit (prefix ++ digits) r Hr) as (c & Hc & E).
    rewrite E, string_append_assoc.
    eapply ensures_weaken.
    + apply IH. rewrite list_ascii_append. apply Forall_app. split; [exact Hd|].
      simpl. constructor; [exact Hc | constructor].
    + intros color (digits' & -> & Hlen & Hall). exists digits'.
      rewrite string_length_append in Hlen. simpl in Hlen.
      repeat split; [lia | exact Hall].
Qed.

Lemma ensures_randomColor : ensures randomColor hexColor.
Proof.
  unfold randomColor. eapply ensures_weaken.
  - apply (ensures_randomColorLoop 6 "#" ""). constructor.
  - intros color (digits & -> & Hlen & Hall). exists digits.
    repeat split; assumption.
Qed.

(** X23.  [randomColor] always writes a well-formed colour: a hash sign
    followed by exactly six characters, each one of [0-9A-F]; the index it
    computes never falls outside the sixteen letters. *)
Theorem random_color_is_hex (g : Rng) :
  unitDraws g ->
  hexColor (fst (randomColor g))
  /\ String.length (fst (randomColor g)) = 7%nat
  /\ cursor (snd (randomColor g)) = (6 + cursor g)%nat.
Proof.
  intros Hg. destruct (ensures_randomColor g Hg) as [H _].
  split; [exact H|]. split.
  - destruct H as (digits & -> & Hlen & _).
    rewrite string_length_append, Hlen. reflexivity.
  - reflexivity.
Qed.

Lemma random_color_is_hex_witness :
  String.length (fst (randomColor {| draws := fun _ => 0.5; cursor := 0 |})) = 7%nat.
Proof.
  apply (random_color_is_hex {| draws := fun _ => 0.5; cursor := 0 |}).
  intros n. simpl. lra.
Defined.

(** X24.  A generated flower is one the sliders could have set: between 5
    and 19 petals (20 is never drawn), a petal length from 0.5 to 2, a
    petal width from 0.1 to 1, a stem height from 1 to 5, each upper end
    excluded, a seed in the unit interval, and three well-formed
    colours. *)
Theorem generated_flower_within_sliders (g : Rng) :
  unitDraws g -> generatedFits (fst (generateNewFlower g)).
Proof.
  intros Hg.
  assert (E : ensures generateNewFlower generatedFits);
    [|exact (proj1 (E g Hg))].
  unfold generateNewFlower.
  draw r1 H1. draw r2 H2. draw r3 H3. draw r4 H4.
  apply (ensures_bind _ _ hexColor); [apply ensures_randomColor|]. intros c1 Hc1.
  apply (ensures_bind _ _ hexColor); [apply ensures_randomColor|]. intros c2 Hc2.
  apply (ensures_bind _ _ hexColor); [apply ensures_randomColor|]. intros c3 Hc3.
  draw r5 H5. apply ensures_ret. unfold generatedFits.
  cbn [editorPetalCount editorPetalLength editorPetalWidth editorStemHeight
       editorSeed editorPetalColor editorCenterColor editorStemColor].
  pose proof (Int_part_scaled r1 15 ltac:(lia) H1) as Hk.
  assert (Hc : (5 <= Int_part (r1 * 15) + 5 <= 19)%Z) by lia.
  assert (HcR : 5 <= IZR (Int_part (r1 * 15) + 5) <= 19).
  { split; apply IZR_le; lia. }
  unfold onSlider, petalCountSlider, petalLengthSlider, petalWidthSlider,
    stemHeightSlider. cbn [sliderMin sliderMax].
  repeat split; try assumption; try lra; lia.
Qed.

Lemma generated_flower_within_sliders_witness :
  generatedFits (fst (generateNewFlower {| draws := fun _ => 0.5; cursor := 0 |})).
Proof.
  apply (generated_flower_within_sliders {| draws := fun _ => 0.5; cursor := 0 |}).
  intros n. simpl. lra.
Defined.

(** X25.  A flower planted from the editor lands on the field: for a stem
    height within its slider, the position written to the store is over
    the default ground, between -10 and 10 in both directions, at a height
    from -0.15 to 0, and drawing the stored flower puts it at that very
    position. *)
Theorem planted_flower_lands_on_the_field (username : string) (e : EditorState)
    (plantedAt : string) (g : Rng) (props : FlowerProps) :
  unitDraws g ->
  onSlider stemHeightSlider (editorStemHeight e) ->
  let flowerData := fst (handlePlantFlower_flowerData username e g) in
  let stored := plantFlower_position (dataPosition flowerData)
                                     (dataStemHeight flowerData) in
  Storage.getProp (StorageWrites.plantFlower_insert flowerData plantedAt) "position"
  = StorageWrites.JPosition stored
  /\ -10 <= vx stored < 10 /\ -10 <= vz stored < 10
  /\ -0.15 <= vy stored <= 0
  /\ overGround Field_size stored
  /\ (stemHeight props = editorStemHeight e -> position props = Some stored ->
      PlantedFlowerWithLabel_position props = stored).
Proof.
  intros Hg [Hlo Hhi]. cbv zeta.
  unfold stemHeightSlider in Hlo, Hhi. cbn [sliderMin sliderMax] in Hlo, Hhi.
  unfold handlePlantFlower_flowerData, bind, Math_random, ret.
  cbn [fst snd draws cursor dataPosition dataStemHeight].
  pose proof (Hg (cursor g)) as H1. pose proof (Hg (S (cursor g))) as H2.
  set (x := draws g (cursor g) * 20 - 10).
  set (z := draws g (S (cursor g)) * 20 - 10).
  destruct (plantFlower_position_cases (x, 0, z) (editorStemHeight e)) as [Hle Hgt].
  assert (Hpos : plantFlower_position (x, 0, z) (editorStemHeight e)
                 = (x, 0, z) /\ editorStemHeight e <= 4
                 \/ plantFlower_position (x, 0, z) (editorStemHeight e)
                    = (x, - ((editorStemHeight e - 4) * 0.15), z)
                    /\ editorStemHeight e > 4).
  { destruct (Rle_or_lt (editorStemHeight e) 4) as [H|H];
      [left; split; [now apply Hle | exact H]
      |right; split; [now apply Hgt | exact H]]. }
  split.
  { unfold StorageWrites.plantFlower_insert, Storage.getProp.
    rewrite lookup_insert_ne by discriminate.
    now rewrite lookup_insert_eq. }
  destruct Hpos as [[-> H4] | [-> H4]]; unfold overGround, Field_size, vx, vy, vz;
    cbn [fst snd]; subst x z.
  - repeat split; try lra.
    intros Hh Hp.
    destruct (PlantedFlowerWithLabel_position_cases props) as [Hc _].
    rewrite Hc by lra. now rewrite Hp.
  - repeat split; try lra.
    intros Hh Hp.
    destruct (PlantedFlowerWithLabel_position_cases props) as [_ Hc].
    rewrite Hc by lra. rewrite Hp, Hh. reflexivity.
Qed.

Lemma planted_flower_lands_on_the_field_witness :
  overGround Field_size
    (plantFlower_position
       (dataPosition
          (fst (handlePlantFlower_flowerData "gardener"
                  {| editorPetalCount := 8; editorPetalLength := 1;
                     editorPetalWidth := 0.5; editorStemHeight := 4.5;
                     editorPetalColor := "#ff6b6b"; editorCenterColor := "#feca57";
                     editorStemColor := "#1dd1a1"; editorSeed := 0.42 |}
                  {| draws := fun _ => 0.5; cursor := 0 |})))
       4.5).
Proof.
  apply (planted_flower_lands_on_the_field "gardener"
           {| editorPetalCount := 8; editorPetalLength := 1;
              editorPetalWidth := 0.5; editorStemHeight := 4.5;
              editorPetalColor := "#ff6b6b"; editorCenterColor := "#feca57";
              editorStemColor := "#1dd1a1"; editorSeed := 0.42 |}
           "2024-05-01T10:00:00.000Z"
           {| draws := fun _ => 0.5; cursor := 0 |}
           (initialProps 4.5 0.42 None)).
  - intros n. simpl. lra.
  - unfold onSlider, stemHeightSlider. simpl. lra.
Defined.

End EditorFacts.

(** ** The storage adapter: what is returned and what is written *)

Section StorageWriteFacts.
Import Storage StorageWrites.

Lemma isTriple_origin : isTriple origin = true.
Proof. reflexivity. Qed.

Lemma truthy_epoch : truthy epoch = true.
Proof. reflexivity. Qed.

Lemma truthy_orElse (a b : jsval) : truthy b = true -> truthy (orElse a b) = true.
Proof. intros Hb. unfold orElse. destruct (truthy a) eqn:E; assumption. Qed.

Lemma isTriple_normalised (v : jsval) :
  isTriple (if isTriple v then v else origin) = true.
Proof. destruct (isTriple v) eqn:E; [exact E | reflexivity]. Qed.

Lemma normalizeFlower_wellFormed (row : gmap string jsval) :
  wellFormed (normalizeFlower row).
Proof.
  split.
  - rewrite normalizeFlower_position. apply isTriple_normalised.
  - rewrite normalizeFlower_plantedAt. apply truthy_orElse, truthy_epoch.
Qed.

(** X26.  Normalising a record twice is the same as normalising it once:
    a fetched record handed back to the adapter's clean-up comes out as it
    went in. *)
Theorem normalizeFlower_idempotent (row : gmap string jsval) :
  normalizeFlower (normalizeFlower row) = normalizeFlower row.
Proof.
  destruct (normalizeFlower_wellFormed row) as [Hp Ha].
  unfold normalizeFlower at 1.
  rewrite Hp. unfold orElse at 1. rewrite Ha.
  rewrite normalizeFlower_lastWatered.
  apply map_eq. intros k.
  destruct (decide (k = "lastWatered"%string)) as [->|H1].
  { rewrite lookup_insert_eq. unfold normalizeFlower.
    now rewrite lookup_insert_eq. }
  rewrite lookup_insert_ne by congruence.
  destruct (decide (k = "plantedAt"%string)) as [->|H2].
  { rewrite lookup_insert_eq. unfold getProp, normalizeFlower.
    rewrite lookup_insert_ne by discriminate.
    now rewrite lookup_insert_eq. }
  rewrite lookup_insert_ne by congruence.
  destruct (decide (k = "position"%string)) as [->|H3].
  { rewrite lookup_insert_eq. unfold getProp, normalizeFlower.
    rewrite !lookup_insert_ne by discriminate.
    now rewrite lookup_insert_eq. }
  now rewrite lookup_insert_ne by congruence.
Qed.

(** X27.  Whatever the store answers, every record that
    [getPlantedFlowers] or [getUserFlowers] returns is fit to be drawn: its
    position is a 3-element array and its plantedAt is present. *)
Theorem fetched_records_are_well_formed (resp : Response) :
  Forall wellFormed (returned (getPlantedFlowers resp))
  /\ Forall wellFormed (returned (getUserFlowers resp)).
Proof.
  rewrite getUserFlowers_returned.
  assert (H : Forall wellFormed (returned (getPlantedFlowers resp))); [|now split].
  unfold getPlantedFlowers. destruct (error resp); simpl; [constructor|].
  apply Forall_fmap. apply Forall_forall. intros row _.
  apply normalizeFlower_wellFormed.
Qed.

Lemma plantFlower_insert_position (d : FlowerData) (plantedAt : string) :
  getProp (plantFlower_insert d plantedAt) "position"
  = JPosition (plantFlower_position (dataPosition d) (dataStemHeight d)).
Proof.
  unfold plantFlower_insert, getProp.
  rewrite lookup_insert_ne by discriminate. now rewrite lookup_insert_eq.
Qed.

Lemma plantFlower_insert_plantedAt (d : FlowerData) (plantedAt : string) :
  getProp (plantFlower_insert d plantedAt) "plantedAt" = JStr plantedAt.
Proof. unfold plantFlower_insert, getProp. now rewrite lookup_insert_eq. Qed.

(** X28.  When the store accepts the insertion and answers with the row it
    was given, completed with an id, [plantFlower] returns that row as it
    reads: every property of the result reads as in the answer, its
    position is the adjusted position and its plantedAt the time of
    planting. *)
Theorem plantFlower_returns_what_it_inserted
    (flowerData : FlowerData) (plantedAt newId : string) (resp : SingleResponse) :
  plantedAt <> ""%string ->
  singleError resp = None ->
  singleData resp
  = Some (<["id" := JStr newId]> (plantFlower_insert flowerData plantedAt)) ->
  exists planted : gmap string jsval,
    returned (plantFlower flowerData plantedAt resp) = Some planted
    /\ logged (plantFlower flowerData plantedAt resp) = []
    /\ (forall k : string,
          getProp planted k
          = getProp (<["id" := JStr newId]> (plantFlower_insert flowerData plantedAt)) k)
    /\ getProp planted "id" = JStr newId
    /\ getProp planted "position"
       = JPosition (plantFlower_position (dataPosition flowerData)
                                         (dataStemHeight flowerData))
    /\ getProp planted "plantedAt" = JStr plantedAt.
Proof.
  intros Hnow He Hd. unfold plantFlower. rewrite He, Hd.
  set (row := <["id" := JStr newId]> (plantFlower_insert flowerData plantedAt)).
  assert (Hpos : getProp row "position"
                 = JPosition (plantFlower_position (dataPosition flowerData)
                                                   (dataStemHeight flowerData))).
  { subst row. rewrite getProp_insert_ne by discriminate.
    apply plantFlower_insert_position. }
  assert (Hat : getProp row "plantedAt" = JStr plantedAt).
  { subst row. rewrite getProp_insert_ne by discriminate.
    apply plantFlower_insert_plantedAt. }
  assert (Htr : truthy (JStr plantedAt) = true).
  { simpl. destruct (String.eqb_spec plantedAt ""); [contradiction | reflexivity]. }
  eexists. split; [reflexivity|]. split; [reflexivity|].
  cbn [returned].
  rewrite Hpos, Hat. unfold orElse. rewrite Htr.
  change (isTriple (JPosition _)) with true. cbv iota.
  assert (Hall : forall k : string,
             getProp (<["lastWatered" := getProp row "lastWatered"]>
                        (<["plantedAt" := JStr plantedAt]>
                           (<["position" := JPosition
                                (plantFlower_position (dataPosition flowerData)
                                   (dataStemHeight flowerData))]> row))) k
             = getProp row k).
  { intros k.
    destruct (decide (k = "lastWatered"%string)) as [->|H1];
      [now rewrite getProp_insert_eq|].
    rewrite getProp_insert_ne by congruence.
    destruct (decide (k = "plantedAt"%string)) as [->|H2];
      [now rewrite getProp_insert_eq|].
    rewrite getProp_insert_ne by congruence.
    destruct (decide (k = "position"%string)) as [->|H3];
      [now rewrite getProp_insert_eq|].
    now rewrite getProp_insert_ne by congruence. }
  split; [exact Hall|]. rewrite !Hall.
  split; [subst row; apply getProp_insert_eq|]. split; assumption.
Qed.

Lemma plantFlower_returns_what_it_inserted_witness :
  exists planted : gmap string jsval,
    returned (plantFlower exampleFlowerData "2024-05-01T10:00:00.000Z"
                {| singleData :=
                     Some (<["id" := JStr "a"]>
                             (plantFlower_insert exampleFlowerData
                                "2024-05-01T10:00:00.000Z"));
                   singleError := None |})
    = Some planted
    /\ getProp planted "id" = JStr "a".
Proof.
  destruct (plantFlower_returns_what_it_inserted exampleFlowerData
              "2024-05-01T10:00:00.000Z" "a"
              {| singleData :=
                   Some (<["id" := JStr "a"]>
                           (plantFlower_insert exampleFlowerData
                              "2024-05-01T10:00:00.000Z"));
                 singleError := None |})
    as (planted & Hr & _ & _ & Hid & _);
    [discriminate | reflexivity | reflexivity |].
  exists planted. split; assumption.
Defined.

(** X29.  A write never hands back a record that cannot be drawn: a
    failed or empty answer gives [null], and any record that [plantFlower]
    (with a non-empty planting time) or [waterFlower] returns has a
    3-element position and a plantedAt. *)
Theorem written_records_are_well_formed
    (flowerData : FlowerData) (plantedAt flowerId lastWatered : string)
    (fetched : CountResponse) (resp : SingleResponse) :
  plantedAt <> ""%string ->
  (singleError resp <> None \/ singleData resp = None ->
   returned (plantFlower flowerData plantedAt resp) = None
   /\ returned (watered (waterFlower flowerId fetched lastWatered resp)) = None)
  /\ (forall planted : gmap string jsval,
        returned (plantFlower flowerData plantedAt resp) = Some planted ->
        wellFormed planted)
  /\ (forall flower : gmap string jsval,
        returned (watered (waterFlower flowerId fetched lastWatered resp))
        = Some flower ->
        wellFormed flower).
Proof.
  intros Hnow.
  assert (Htr : truthy (JStr plantedAt) = true).
  { simpl. destruct (String.eqb_spec plantedAt ""); [contradiction | reflexivity]. }
  split; [|split].
  - intros Hfail. unfold plantFlower, waterFlower.
    destruct (countError fetched), (countData fetched),
      (singleError resp), (singleData resp);
      cbn [watered returned]; split; try reflexivity;
      destruct Hfail as [H|H]; congruence.
  - intros planted. unfold plantFlower.
    destruct (singleError resp); [discriminate|].
    destruct (singleData resp) as [data|]; [|discriminate].
    cbn [returned]. intros [= <-]. split.
    + unfold getProp at 1. rewrite !lookup_insert_ne by discriminate.
      rewrite lookup_insert_eq. apply isTriple_normalised.
    + unfold getProp at 1. rewrite lookup_insert_ne by discriminate.
      rewrite lookup_insert_eq. now apply truthy_orElse.
  - intros flower. unfold waterFlower.
    destruct (countError fetched), (countData fetched); cbn [watered returned];
      try discriminate.
    destruct (singleError resp); [discriminate|].
    destruct (singleData resp) as [data|]; [|discriminate].
    cbn [returned]. intros [= <-]. apply (normalizeFlower_wellFormed data).
Qed.

Lemma written_records_are_well_formed_witness :
  returned (plantFlower exampleFlowerData "2024-05-01T10:00:00.000Z"
              {| singleData := None; singleError := Some (JStr "connection refused") |})
  = None.
Proof.
  apply (written_records_are_well_formed exampleFlowerData
           "2024-05-01T10:00:00.000Z" "a" "2024-05-02T08:30:00.000Z"
           {| countData := Some None; countError := None |}
           {| singleData := None; singleError := Some (JStr "connection refused") |});
    [discriminate | right; reflexivity].
Defined.

(** X30.  [waterFlower] sends its update only after it has read the
    current count: when that read fails or finds no flower, nothing is
    written and the call returns [null]; otherwise one update goes to the
    flower asked for, carrying the new watering time and a count one above
    the count read, a missing or zero count being taken as zero. *)
Theorem waterFlower_updates_after_reading
    (flowerId lastWatered : string) (fetched : CountResponse) (resp : SingleResponse) :
  (countError fetched <> None \/ countData fetched = None ->
   updateSent (waterFlower flowerId fetched lastWatered resp) = None
   /\ returned (watered (waterFlower flowerId fetched lastWatered resp)) = None)
  /\ (forall waterCount : option R,
        countError fetched = None -> countData fetched = Some waterCount ->
        exists payload : gmap string jsval,
          updateSent (waterFlower flowerId fetched lastWatered resp)
          = Some (flowerId, payload)
          /\ payload !! "lastWatered" = Some (JStr lastWatered)
          /\ payload !! "waterCount"
             = Some (JNum (default 0%R waterCount + 1))
          /\ (forall k : string,
                k <> "lastWatered"%string -> k <> "waterCount"%string ->
                payload !! k = None)).
Proof.
  split.
  - intros Hfail. unfold waterFlower.
    destruct (countError fetched), (countData fetched);
      cbn [updateSent watered returned]; split; try reflexivity;
      destruct Hfail as [H|H]; congruence.
  - intros waterCount He Hd. unfold waterFlower. rewrite He, Hd.
    eexists. split; [reflexivity|].
    split; [|split].
    + rewrite lookup_insert_ne by discriminate. now rewrite lookup_insert_eq.
    + rewrite lookup_insert_eq. do 2 f_equal. unfold newWaterCount.
      destruct waterCount as [n|]; simpl; [|reflexivity].
      destruct (Req_dec_T n 0) as [->|]; reflexivity.
    + intros k H1 H2. rewrite !lookup_insert_ne by congruence.
      apply lookup_empty.
Qed.

Lemma waterFlower_updates_after_reading_witness :
  updateSent (waterFlower "a" {| countData := None; countError := None |}
                "2024-05-02T08:30:00.000Z"
                {| singleData := None; singleError := None |})
  = None.
Proof.
  apply (waterFlower_updates_after_reading "a" "2024-05-02T08:30:00.000Z"
           {| countData := None; countError := None |}
           {| singleData := None; singleError := None |}).
  right. reflexivity.
Defined.

End StorageWriteFacts.
